(** * symbols: the icon pipeline of [src/install.ts] and [src/browser.js]

    A shallow embedding of the install script (SVG discovery, component
    name derivation, output directory rebuild) and of the data literal
    that the icon browser embeds in its page.

    JavaScript strings are sequences of UTF-16 code units; they are
    modelled as [list N], one number per code unit.  The file system and
    the subprocess runner are modelled by an explicit world that the
    async functions thread through a small state-and-error monad. *)

From Stdlib Require Import NArith Ascii String Sorted.
From stdpp Require Import base list gmap.

Local Open Scope N_scope.

(** ** JavaScript strings *)

Abbreviation jsstring := (list N).

(** A literal: the code units of an ASCII (Latin-1) source string. *)
Definition js (s : string) : jsstring :=
  List.map N_of_ascii (list_ascii_of_string s).

(** The character classes used by the regular expressions of the source:
    [0-9], [A-Z], [a-z].  None of the expressions that use them carries
    the [i] flag, so the ranges are exact. *)
Definition isDigit (c : N) : bool := (48 <=? c) && (c <=? 57).
Definition isUpper (c : N) : bool := (65 <=? c) && (c <=? 90).
Definition isLower (c : N) : bool := (97 <=? c) && (c <=? 122).
Definition isLetter (c : N) : bool := isUpper c || isLower c.

(** [[a-zA-Z0-9]]; its complement is the separator class [[^a-zA-Z0-9]]. *)
Definition isAlnum (c : N) : bool := isLower c || isUpper c || isDigit c.

(** The two classes as propositions. *)
Definition alnum (c : N) : Prop := isAlnum c = true.
Definition separator (c : N) : Prop := isAlnum c = false.

(** [String.prototype.toUpperCase] on one code unit, on the ASCII range.
    The script only applies it to the first code unit of a segment that
    [split] produced, which is always in [[a-zA-Z0-9]] (lemma
    [split_parts_alnum] below), so the ASCII table is all that is used. *)
Definition toUpperCase1 (c : N) : N := if isLower c then c - 32 else c.

(** [ch] matches the pattern character [pat] (a lower-case ASCII letter
    or a non-letter) under the [i] flag without the [u] flag: both sides
    are canonicalised with the simple upper-case mapping, and a code unit
    at or above 128 never canonicalises into the ASCII range. *)
Definition matches_ci (pat ch : N) : bool :=
  (ch =? pat) || (isLower pat && (ch =? pat - 32)).

(** ** [toComponentName] (install.ts, lines 123-133) *)

(** [/\.svg$/i] at the end of the input: the four last code units, given
    here in reverse order. *)
Definition svgTailMatches (g v s dot : N) : bool :=
  matches_ci 46 dot && matches_ci 115 s && matches_ci 118 v && matches_ci 103 g.

(** [fileName.replace(/\.svg$/i, '')].  The pattern is anchored at the end
    of the input, so it has at most one match: the last four code units. *)
Definition stripSvgExt (fileName : jsstring) : jsstring :=
  match rev fileName with
  | g :: v :: s :: dot :: rest =>
      if svgTailMatches g v s dot then rev rest else fileName
  | _ => fileName
  end.

(** Put [c] in front of the first segment of a split. *)
Definition consHead (c : N) (segs : list jsstring) : list jsstring :=
  match segs with
  | h :: t => (c :: h) :: t
  | [] => [[c]]
  end.

(** [base.split(/[^a-zA-Z0-9]+/)].  The pattern is greedy and cannot match
    the empty string, so every maximal run of separators is one split
    point; a separator run at either end of the input leaves an empty
    segment there, and the empty input splits into one empty segment. *)
Fixpoint split (s : jsstring) : list jsstring :=
  match s with
  | [] => [[]]
  | c :: r =>
      if isAlnum c then consHead c (split r)
      else match r with
           | d :: _ => if isAlnum d then [] :: split r else split r
           | [] => [] :: split r
           end
  end.

(** [Boolean(part)] for a string: false exactly for the empty string. *)
Definition truthy (part : jsstring) : bool :=
  match part with [] => false | _ :: _ => true end.

(** [part.charAt(0).toUpperCase() + part.slice(1)] *)
Definition capitalize (part : jsstring) : jsstring :=
  match part with
  | [] => []
  | c :: rest => toUpperCase1 c :: rest
  end.

(** [parts]: [base.split(...).filter(Boolean)] *)
Definition parts (base : jsstring) : list jsstring :=
  List.filter truthy (split base).

(** [name]: [parts.map(capitalize).join('')] *)
Definition rawName (fileName : jsstring) : jsstring :=
  List.concat (List.map capitalize (parts (stripSvgExt fileName))).

Definition Icon : jsstring := js "Icon".

(** [name || 'Icon'] *)
Definition safeName (fileName : jsstring) : jsstring :=
  match rawName fileName with
  | [] => Icon
  | name => name
  end.

(** [/^[A-Za-z]/.test(s)] *)
Definition startsWithLetter (s : jsstring) : bool :=
  match s with
  | c :: _ => isLetter c
  | [] => false
  end.

Definition toComponentName (fileName : jsstring) : jsstring :=
  let safe := safeName fileName in
  if startsWithLetter safe then safe ++ Icon else Icon ++ safe.

(** ** The input enumerator (install.ts, lines 52-55; browser.js, lines 29-36) *)

(** What a directory entry or a [stat] result can be.  [Dirent.isFile()]
    and [Stats.isFile()] hold for regular files only, [isDirectory()] for
    directories only. *)
Inductive SpecialKind := Fifo | Socket | CharacterDevice | BlockDevice.

Inductive NodeKind :=
  | KFile
  | KDirectory
  | KSymbolicLink
  | KSpecial (s : SpecialKind).

Definition isFile (k : NodeKind) : bool :=
  match k with KFile => true | _ => false end.

Definition isDirectory (k : NodeKind) : bool :=
  match k with KDirectory => true | _ => false end.

(** An entry of the icon directory: the [Dirent] that [readdir] returns
    ([name], [kind]) and, for a regular file, the text that [readFile]
    returns for it. *)
Record Dirent := mkDirent {
  name : jsstring;
  kind : NodeKind;
  text : jsstring
}.

(** [s.endsWith(suffix)]: the last [length suffix] code units of [s] are
    [suffix], compared code unit by code unit. *)
Definition endsWith (s suffix : jsstring) : bool :=
  let n := length s in
  let m := length suffix in
  if (m <=? n)%nat then bool_decide (drop (n - m) s = suffix) else false.

Definition dotSvg : jsstring := js ".svg".

(** The predicate both scripts filter with:
    [(entry) => entry.isFile() && entry.name.endsWith('.svg')] *)
Definition isSvgFile (entry : Dirent) : bool :=
  isFile (kind entry) && endsWith (name entry) dotSvg.

(** [svgFiles] of [buildReactComponents]: [entries.filter(...)], in the
    order of the listing. *)
Definition svgFiles (entries : list Dirent) : list Dirent :=
  List.filter isSvgFile entries.

(** [Array.prototype.sort] with a comparator, as a stable insertion sort:
    [a] stays in front of [b] when [cmp a b <= 0]. *)
Fixpoint sortInsert (cmp : jsstring -> jsstring -> Z) (a : jsstring)
    (l : list jsstring) : list jsstring :=
  match l with
  | [] => [a]
  | b :: l' => if (cmp a b <=? 0)%Z then a :: b :: l'
               else b :: sortInsert cmp a l'
  end.

Definition sortWith (cmp : jsstring -> jsstring -> Z) (l : list jsstring)
    : list jsstring :=
  List.fold_right (sortInsert cmp) [] l.

(** [loadIconNames] of browser.js; [localeCompare] depends on the host's
    locale and is a parameter. *)
Definition loadIconNames (localeCompare : jsstring -> jsstring -> Z)
    (entries : list Dirent) : list jsstring :=
  sortWith localeCompare (List.map name (List.filter isSvgFile entries)).

(** The filter as the specification words it: a regular file whose name
    ends with the extension in any capitalisation. *)
Definition spec_hasSvgExt_ci (fileName : jsstring) : bool :=
  match rev fileName with
  | g :: v :: s :: dot :: _ => svgTailMatches g v s dot
  | _ => false
  end.

Definition spec_isSvgFile_ci (entry : Dirent) : bool :=
  isFile (kind entry) && spec_hasSvgExt_ci (name entry).

(** The listing of the specification's enumeration example: two regular
    files that differ in the capitalisation of the extension, a text file
    and a subdirectory named like an icon. *)
Definition listing4 : list Dirent :=
  [ mkDirent (js "icon.svg") KFile (js "<svg/>");
    mkDirent (js "icon.SVG") KFile (js "<svg/>");
    mkDirent (js "readme.txt") KFile (js "hello");
    mkDirent (js "icon.svg") KDirectory [] ].

(** The regular file of the listing whose extension is in upper case. *)
Definition iconUpper : Dirent := mkDirent (js "icon.SVG") KFile (js "<svg/>").

(** ** The embedded data literal of the browser page (browser.js, line 39) *)

Definition hexDigit (d : N) : N := if d <? 10 then 48 + d else 87 + d.

(** [UnicodeEscape]: a backslash, [u] and four lower-case hex digits. *)
Definition unicodeEscape (c : N) : jsstring :=
  [92; 117; hexDigit (c / 4096 mod 16); hexDigit (c / 256 mod 16);
   hexDigit (c / 16 mod 16); hexDigit (c mod 16)].

Definition isLeadSurrogate (c : N) : bool := (55296 <=? c) && (c <=? 56319).
Definition isTrailSurrogate (c : N) : bool := (56320 <=? c) && (c <=? 57343).

(** The escape of one code unit that is not half of a surrogate pair. *)
Definition quoteUnit (c : N) : jsstring :=
  if c =? 8 then [92; 98]
  else if c =? 9 then [92; 116]
  else if c =? 10 then [92; 110]
  else if c =? 12 then [92; 102]
  else if c =? 13 then [92; 114]
  else if c =? 34 then [92; 34]
  else if c =? 92 then [92; 92]
  else if (c <? 32) || isLeadSurrogate c || isTrailSurrogate c
       then unicodeEscape c
  else [c].

(** The body of [QuoteJSONString]: a well-formed surrogate pair is kept,
    every other code unit goes through [quoteUnit]. *)
Fixpoint quoteBody (s : jsstring) : jsstring :=
  match s with
  | [] => []
  | c :: r =>
      match r with
      | d :: r' =>
          if isLeadSurrogate c && isTrailSurrogate d
          then c :: d :: quoteBody r'
          else quoteUnit c ++ quoteBody r
      | [] => quoteUnit c
      end
  end.

Definition quoteJSONString (s : jsstring) : jsstring :=
  [34] ++ quoteBody s ++ [34].

(** [items.join(',')] *)
Fixpoint joinComma (items : list jsstring) : jsstring :=
  match items with
  | [] => []
  | [x] => x
  | x :: rest => x ++ [44] ++ joinComma rest
  end.

(** [JSON.stringify] of an array of strings, without indentation. *)
Definition JSON_stringify (iconNames : list jsstring) : jsstring :=
  [91] ++ joinComma (List.map quoteJSONString iconNames) ++ [93].

(** The replacement text ['\\u003c'], six code units: a backslash, [u],
    [0], [0], [3], [c]. *)
Definition lt_escape : jsstring := [92; 117; 48; 48; 51; 99].

(** [s.replace(/</g, '\\u003c')]: every code unit 60 is replaced. *)
Definition replaceLt (s : jsstring) : jsstring :=
  List.flat_map (fun c => if c =? 60 then lt_escape else [c]) s.

(** [safeJson] of [renderHtml] *)
Definition safeJson (iconNames : list jsstring) : jsstring :=
  replaceLt (JSON_stringify iconNames).

(** [renderHtml]: the template literal with its interpolations.  The
    static text between them ([t0] .. [t3]), the locale-formatted count
    and the URL prefix literal do not depend on the icon names' text. *)
Definition renderHtml (t0 t1 t2 t3 : jsstring)
    (countText : nat -> jsstring) (iconPrefixJson : jsstring)
    (iconNames : list jsstring) : jsstring :=
  t0 ++ countText (length iconNames) ++ t1 ++ safeJson iconNames
     ++ t2 ++ iconPrefixJson ++ t3.

(** [needle] occurs in [s] as a contiguous substring. *)
Definition occursIn (needle s : jsstring) : Prop :=
  exists pre post, s = pre ++ needle ++ post.

(** ** The world of the install script *)

(** A thrown value: a file-system error with its [code], an [Error] made
    by the script with its message, a failed subprocess, or a failure of
    the content transformer. *)
Inductive Failure :=
  | ErrnoException (code : string)
  | JsError (message : string)
  | SubprocessFailed (command : string)
  | TransformFailed (componentName : jsstring).

(** [(error as NodeJS.ErrnoException).code] *)
Definition errorCode (error : Failure) : option string :=
  match error with
  | ErrnoException code => Some code
  | _ => None
  end.

Inductive Outcome (A : Type) :=
  | Ok (a : A)
  | Throw (error : Failure).
Arguments Ok {A} a.
Arguments Throw {A} error.

(** What is at [svgDir] ([src/sf-symbols]): nothing, a directory with its
    entries, a regular file, anything else, or a path whose probe fails
    with [error] (permission denied and the like). *)
(** What is at [svgDir] ([src/sf-symbols]): nothing, a directory with its
    entries, a regular file, anything else, or a path whose probe fails
    with [error] (permission denied and the like). *)
Inductive PathState :=
  | PAbsent
  | PDirectory (entries : list Dirent)
  | PFile
  | PSpecial (s : SpecialKind)
  | PFault (error : Failure).

(** What is at [componentsDir] ([dist/components]): nothing, a directory
    with its files (name to text), something that is not a directory, or
    a path on which every operation fails with [error] (a regular file
    in the place of [dist], a directory that may not be searched). *)
Inductive DestState :=
  | DAbsent
  | DDir (files : gmap jsstring jsstring)
  | DNotDir
  | DFault (error : Failure).

(** What the environment refuses although the destination itself is in
    order: reading an icon ([readFault], by file name), creating the
    destination ([mkdirFault]), writing a component ([writeFault], by
    file name and text; with the error comes what the failed write left
    in the file, if anything). *)
Record IOFaults := mkIOFaults {
  readFault : jsstring -> option Failure;
  mkdirFault : option Failure;
  writeFault : jsstring -> jsstring -> option (Failure * option jsstring)
}.

(** [relative(svgDir)] and [relative(componentsDir)], with POSIX separators. *)
Definition svgDirRel : string := "src/sf-symbols".
Definition componentsDirRel : string := "dist/components".

(** The [console.log] lines of the script; counts stay numbers. *)
Inductive LogMsg :=
  | LogSkipGeneration (path : string)
  | LogGenerating
  | LogNoSvgIcons (path : string)
  | LogTransforming (count : nat)
  | LogGenerated (count : nat) (path : string)
  | LogSkipPrettierNotDirectory (path : string)
  | LogSkipPrettierMissing (path : string)
  | LogFormatting.

(** What the script asks of the outside, in order: a console line, a
    subprocess, and the calls that change the destination.  A call is
    recorded when it is made, whether it then succeeds or fails. *)
Inductive Event :=
  | ELog (msg : LogMsg)
  | EExec (file : string) (args : list string)
  | ERm (path : string)
  | EMkdir (path : string)
  | EWriteFile (dir : string) (fileName : jsstring).

Record World := mkWorld {
  svgPath : PathState;
  componentsPath : DestState;
  trace : list Event
}.

Definition setSvgPath (p : PathState) (w : World) : World :=
  mkWorld p (componentsPath w) (trace w).
Definition setComponentsPath (d : DestState) (w : World) : World :=
  mkWorld (svgPath w) d (trace w).
Definition emit (e : Event) (w : World) : World :=
  mkWorld (svgPath w) (componentsPath w) (trace w ++ [e]).

(** An async function of the script: it runs in a world and either
    returns or throws, leaving a world behind. *)
Definition IO (A : Type) : Type := World -> Outcome A * World.

Definition ret {A} (a : A) : IO A := fun w => (Ok a, w).
Definition throw {A} (error : Failure) : IO A := fun w => (Throw error, w).
Definition bind {A B} (m : IO A) (k : A -> IO B) : IO B :=
  fun w => match m w with
           | (Ok a, w') => k a w'
           | (Throw error, w') => (Throw error, w')
           end.
(** [try { m } catch (error) { handler }] *)
Definition tryCatch {A} (m : IO A) (handler : Failure -> IO A) : IO A :=
  fun w => match m w with
           | (Ok a, w') => (Ok a, w')
           | (Throw error, w') => handler error w'
           end.

Notation "x <~ m ;; k" := (bind m (fun x => k))
  (at level 100, m at next level, right associativity).
Notation "m ;;; k" := (bind m (fun _ => k))
  (at level 100, right associativity).

(** [for (const x of xs) { body }] *)
Fixpoint forOf {A} (xs : list A) (body : A -> IO unit) : IO unit :=
  match xs with
  | [] => ret tt
  | x :: rest => body x ;;; forOf rest body
  end.

(** [error.code === 'ENOENT'] *)
Definition isENOENT (error : Failure) : bool :=
  bool_decide (errorCode error = Some "ENOENT"%string).

(** *** Primitive operations *)

Definition console_log (msg : LogMsg) : IO unit :=
  fun w => (Ok tt, emit (ELog msg) w).

(** [fs.stat(svgDir)]: follows links, so it never reports a link. *)
Definition fs_stat_svgDir : IO NodeKind :=
  fun w => match svgPath w with
           | PAbsent => (Throw (ErrnoException "ENOENT"), w)
           | PDirectory _ => (Ok KDirectory, w)
           | PFile => (Ok KFile, w)
           | PSpecial s => (Ok (KSpecial s), w)
           | PFault error => (Throw error, w)
           end.

(** [fs.readdir(svgDir, { withFileTypes: true })] *)
Definition fs_readdir_svgDir : IO (list Dirent) :=
  fun w => match svgPath w with
           | PDirectory entries => (Ok entries, w)
           | PAbsent => (Throw (ErrnoException "ENOENT"), w)
           | PFault error => (Throw error, w)
           | _ => (Throw (ErrnoException "ENOTDIR"), w)
           end.

(** [fs.readFile(path.join(svgDir, fileName), 'utf8')]: the environment
    may refuse the read; otherwise the text of the entry of that name. *)
Definition fs_readFile_svg (io : IOFaults) (fileName : jsstring) : IO jsstring :=
  fun w =>
    match readFault io fileName with
    | Some error => (Throw error, w)
    | None =>
        match svgPath w with
        | PDirectory entries =>
            match List.find (fun e => bool_decide (name e = fileName)) entries with
            | Some e => if isFile (kind e) then (Ok (text e), w)
                        else (Throw (ErrnoException "EISDIR"), w)
            | None => (Throw (ErrnoException "ENOENT"), w)
            end
        | PAbsent => (Throw (ErrnoException "ENOENT"), w)
        | PFault error => (Throw error, w)
        | _ => (Throw (ErrnoException "ENOTDIR"), w)
        end
    end.

(** [fs.rm(componentsDir, { recursive: true, force: true })]: whatever is
    there is removed; nothing there is not an error, and a not-found
    error is silenced; any other error of the path is thrown and the
    path stays as it is. *)
Definition fs_rm_componentsDir : IO unit :=
  fun w =>
    let w' := emit (ERm componentsDirRel) w in
    match componentsPath w with
    | DFault error =>
        if isENOENT error then (Ok tt, setComponentsPath DAbsent w')
        else (Throw error, w')
    | _ => (Ok tt, setComponentsPath DAbsent w')
    end.

(** [fs.mkdir(componentsDir, { recursive: true })]: creates the directory
    empty unless the environment refuses, keeps an existing directory,
    fails on a non-directory and on a faulty path. *)
Definition fs_mkdir_componentsDir (io : IOFaults) : IO unit :=
  fun w =>
    let w' := emit (EMkdir componentsDirRel) w in
    match componentsPath w with
    | DAbsent =>
        match mkdirFault io with
        | Some error => (Throw error, w')
        | None => (Ok tt, setComponentsPath (DDir ∅) w')
        end
    | DDir _ => (Ok tt, w')
    | DNotDir => (Throw (ErrnoException "EEXIST"), w')
    | DFault error => (Throw error, w')
    end.

(** [fs.writeFile(path.join(componentsDir, fileName), source, 'utf8')]:
    creates or overwrites the file; when the environment refuses, the
    error is thrown and the file holds what the failed write left. *)
Definition fs_writeFile_component (io : IOFaults) (fileName source : jsstring)
    : IO unit :=
  fun w =>
    let w' := emit (EWriteFile componentsDirRel fileName) w in
    match componentsPath w with
    | DDir files =>
        match writeFault io fileName source with
        | None =>
            (Ok tt, setComponentsPath (DDir (<[fileName := source]> files)) w')
        | Some (error, Some remains) =>
            (Throw error,
             setComponentsPath (DDir (<[fileName := remains]> files)) w')
        | Some (error, None) => (Throw error, w')
        end
    | DAbsent => (Throw (ErrnoException "ENOENT"), w')
    | DNotDir => (Throw (ErrnoException "ENOTDIR"), w')
    | DFault error => (Throw error, w')
    end.

(** [fs.stat(componentsDir)].  For something that is not a directory the
    kind is reported as a regular file; the script only asks
    [isDirectory()]. *)
Definition fs_stat_componentsDir : IO NodeKind :=
  fun w => match componentsPath w with
           | DAbsent => (Throw (ErrnoException "ENOENT"), w)
           | DDir _ => (Ok KDirectory, w)
           | DNotDir => (Ok KFile, w)
           | DFault error => (Throw error, w)
           end.

Definition dotTsx : jsstring := js ".tsx".

Inductive SvgPathState := missing | directory | file.

(** The command lines of the generator and of the formatter. *)
Definition generatorCall : Event :=
  EExec "yarn" ["sf-symbols-svg"; "-o"; svgDirRel]%string.
Definition prettierCall : Event :=
  EExec "yarn" ["prettier"; "--write"; componentsDirRel]%string.


(** The generator was started between [w] and [w']. *)
Definition generatorInvoked (w w' : World) : Prop :=
  exists pre post, trace w' = trace w ++ pre ++ generatorCall :: post.

(** The probe of [svgDir] reports that nothing is there. *)
Definition pathAbsent (w : World) : Prop :=
  exists error,
    fst (fs_stat_svgDir w) = Throw error /\
    errorCode error = Some "ENOENT"%string.

(** The destination can be removed: it is not a path whose operations
    fail with an error other than not-found. *)
Definition removable (d : DestState) : Prop :=
  forall error, d = DFault error -> isENOENT error = true.

(** The name of the file that the loop writes for [svg], and the write
    as an event. *)
Definition componentFile (svg : Dirent) : jsstring :=
  toComponentName (name svg) ++ dotTsx.
Definition writeEvent (svg : Dirent) : Event :=
  EWriteFile componentsDirRel (componentFile svg).

(** The same files, with another history. *)
Definition withTrace (t : list Event) (w : World) : World :=
  mkWorld (svgPath w) (componentsPath w) t.

Section Install.

(** The environment's faults and the external collaborators: the SVGR
    [transform] (content, component name); the [sf-symbols-svg]
    generator and the formatter, each of which exits normally or with an
    error and in both cases leaves something at the path it works on. *)
Variable io : IOFaults.
Variable transform : jsstring -> jsstring -> Outcome jsstring.
Variable sfSymbolsSvg : PathState -> Outcome unit * PathState.
Variable prettier : DestState -> Outcome unit * DestState.

(** [execa('yarn', ['sf-symbols-svg', '-o', relative(svgDir)], ...)] *)
Definition execa_generator : IO unit :=
  fun w =>
    let w' := emit generatorCall w in
    match sfSymbolsSvg (svgPath w) with
    | (exit, p) => (exit, setSvgPath p w')
    end.

(** [execa('yarn', ['prettier', '--write', relative(componentsDir)], ...)] *)
Definition execa_prettier : IO unit :=
  fun w =>
    let w' := emit prettierCall w in
    match prettier (componentsPath w) with
    | (exit, d) => (exit, setComponentsPath d w')
    end.

(** [detectSvgDir] (install.ts, lines 135-150).  The [try] block returns
    for a directory and for a regular file and falls through ([None])
    otherwise; the statement after it returns ['missing']. *)
Definition detectSvgDir : IO SvgPathState :=
  returned <~ tryCatch
      (stats <~ fs_stat_svgDir ;;
       if isDirectory stats then ret (Some directory)
       else if isFile stats then ret (Some file)
       else ret None)
      (fun error =>
         if bool_decide (errorCode error = Some "ENOENT"%string)
         then ret (Some missing)
         else throw error) ;;
  match returned with
  | Some state => ret state
  | None => ret missing
  end.

(** [ensureSvgIcons] (install.ts, lines 19-41) *)
Definition ensureSvgIcons : IO unit :=
  svgPathState <~ detectSvgDir ;;
  match svgPathState with
  | directory => console_log (LogSkipGeneration svgDirRel)
  | file =>
      throw (JsError (svgDirRel ++
        " exists but is not a directory. Remove it so icons can be generated."))
  | missing =>
      console_log LogGenerating ;;;
      execa_generator
  end.

(** What an iteration of the loop has to write for [svg] (lines 70-84):
    the transformer's output for the text read from the icon's path. *)
Definition sourceFor (w : World) (svg : Dirent) : Outcome jsstring :=
  match fst (fs_readFile_svg io (name svg) w) with
  | Ok svgContent => transform svgContent (toComponentName (name svg))
  | Throw error => Throw error
  end.

(** The body of the loop of [buildReactComponents] (lines 69-88). *)
Definition transformOne (svg : Dirent) : IO unit :=
  svgContent <~ fs_readFile_svg io (name svg) ;;
  let componentName := toComponentName (name svg) in
  componentSource <~
    (fun w => match transform svgContent componentName with
              | Ok source => (Ok source, w)
              | Throw error => (Throw error, w)
              end) ;;
  fs_writeFile_component io (componentName ++ dotTsx) componentSource.

(** [buildReactComponents] (install.ts, lines 43-93) *)
Definition buildReactComponents : IO unit :=
  svgPathState <~ detectSvgDir ;;
  match svgPathState with
  | directory =>
      entries <~ fs_readdir_svgDir ;;
      let svgs := svgFiles entries in
      match svgs with
      | [] => console_log (LogNoSvgIcons svgDirRel)
      | _ :: _ =>
          fs_rm_componentsDir ;;;
          fs_mkdir_componentsDir io ;;;
          console_log (LogTransforming (length svgs)) ;;;
          forOf svgs transformOne ;;;
          console_log (LogGenerated (length svgs) componentsDirRel)
      end
  | _ =>
      throw (JsError ("SVG icon directory not found at " ++ svgDirRel ++
                      ". Generation may have failed."))
  end.

(** [formatComponents] (install.ts, lines 95-121).  The [try] statement
    either leaves the function ([false]) or lets it go on ([true]). *)
Definition formatComponents : IO unit :=
  goOn <~ tryCatch
      (stats <~ fs_stat_componentsDir ;;
       if negb (isDirectory stats)
       then console_log (LogSkipPrettierNotDirectory componentsDirRel) ;;;
            ret false
       else ret true)
      (fun error =>
         if bool_decide (errorCode error = Some "ENOENT"%string)
         then console_log (LogSkipPrettierMissing componentsDirRel) ;;;
              ret false
         else throw error) ;;
  if goOn : bool
  then console_log LogFormatting ;;; execa_prettier
  else ret tt.

(** [main] (install.ts, lines 13-17) *)
Definition main : IO unit :=
  ensureSvgIcons ;;;
  buildReactComponents ;;;
  formatComponents.

End Install.

(** An environment that refuses nothing. *)
Definition noFaults : IOFaults :=
  mkIOFaults (fun _ => None) None (fun _ _ => None).

(** A world with [p] at [svgDir], no destination directory and no
    history; one with a destination. *)
Definition worldWith (p : PathState) : World := mkWorld p DAbsent [].
Definition worldOf (p : PathState) (d : DestState) : World := mkWorld p d [].

(** The world in which the loop starts: the destination removed and
    created again, and the count logged. *)
Definition loopStart (count : nat) (w : World) : World :=
  emit (ELog (LogTransforming count))
    (emit (EMkdir componentsDirRel)
       (setComponentsPath (DDir ∅)
          (emit (ERm componentsDirRel) (setComponentsPath DAbsent w)))).

(** Collaborators for concrete runs: a generator that leaves an empty
    directory, one that fails after it has left a directory, one that
    exits normally without changing anything; a transformer that returns
    the text followed by the component name, and one that rejects one
    component name; a formatter that keeps the files and one that
    fails. *)
Definition generatorFills (p : PathState) : Outcome unit * PathState :=
  (Ok tt, PDirectory []).
Definition generatorFails (p : PathState) : Outcome unit * PathState :=
  (Throw (SubprocessFailed "yarn"), PDirectory []).
Definition generatorIdle (p : PathState) : Outcome unit * PathState :=
  (Ok tt, p).
Definition transformEcho (svgContent componentName : jsstring)
    : Outcome jsstring :=
  Ok (svgContent ++ componentName).
Definition transformPicky (svgContent componentName : jsstring)
    : Outcome jsstring :=
  if bool_decide (componentName = js "BadIcon")
  then Throw (TransformFailed componentName)
  else Ok (svgContent ++ componentName).
Definition prettierKeeps (d : DestState) : Outcome unit * DestState :=
  (Ok tt, d).
Definition prettierFails (d : DestState) : Outcome unit * DestState :=
  (Throw (SubprocessFailed "yarn"), d).

(** A destination that holds a file of an earlier run, and a world with
    the example listing as source. *)
Definition staleDest : DestState :=
  DDir {[ js "OldIcon.tsx" := js "stale" ]}.
Definition staleWorld : World :=
  mkWorld (PDirectory listing4) staleDest [].

(** Two icons whose names collide; three icons of which the second is
    rejected by [transformPicky]. *)
Definition collidingListing : list Dirent :=
  [ mkDirent (js "a-b.svg") KFile (js "<one/>");
    mkDirent (js "a_b.svg") KFile (js "<two/>") ].
Definition pickyListing : list Dirent :=
  [ mkDirent (js "good.svg") KFile (js "<g/>");
    mkDirent (js "bad.svg") KFile (js "<b/>");
    mkDirent (js "late.svg") KFile (js "<l/>") ].

(** ** The page builder (browser.js, lines 10-47) *)

(** [relativeIconDir.split(path.sep).join('/')]: every separator becomes
    a slash. *)
Definition toSlashes (sep : N) (relativeIconDir : jsstring) : jsstring :=
  List.map (fun c => if c =? sep then 47 else c) relativeIconDir.

(** [iconUrlPrefix] of [renderHtml] *)
Definition iconUrlPrefix (relativeIconDir : jsstring) : jsstring :=
  if endsWith relativeIconDir [47] then relativeIconDir
  else relativeIconDir ++ [47].

(** What is at [outputPath] ([dist/index.html]): no [dist] directory, no
    file yet, or a file with its text. *)
Inductive OutputState :=
  | OutNoDirectory
  | OutAbsent
  | OutFile (html : jsstring).

Inductive BrowserLog :=
  | LogWrote (count : nat) (path : string)
  | LogOpenHint.

Record BrowserWorld := mkBrowserWorld {
  iconDir : PathState;
  outputFile : OutputState;
  browserLog : list BrowserLog
}.

(** [fs.readdir(iconDir, { withFileTypes: true })] *)
Definition readdirOf (p : PathState) : Outcome (list Dirent) :=
  match p with
  | PDirectory entries => Ok entries
  | PAbsent => Throw (ErrnoException "ENOENT")
  | PFault error => Throw error
  | _ => Throw (ErrnoException "ENOTDIR")
  end.

Definition outputPathRel : string := "dist/index.html".

Section Browser.

Variable localeCompare : jsstring -> jsstring -> Z.
(** The static text of the page, the locale-formatted count, and the
    platform's path separator with the relative path of the icon
    directory as [path.relative] returns it. *)
Variables t0 t1 t2 t3 : jsstring.
Variable countText : nat -> jsstring.
Variable sep : N.
Variable relativeIconDir : jsstring.
(** What the environment refuses when the page is written: for a text,
    the error and what the failed write left at the path. *)
Variable pageWriteFault : jsstring -> option (Failure * OutputState).

(** [renderHtml(iconNames)] with the page's own pieces filled in. *)
Definition renderPage (iconNames : list jsstring) : jsstring :=
  renderHtml t0 t1 t2 t3 countText
    (quoteJSONString (iconUrlPrefix (toSlashes sep relativeIconDir)))
    iconNames.

(** [main] of browser.js (lines 10-27) *)
Definition browserMain (w : BrowserWorld) : Outcome unit * BrowserWorld :=
  match readdirOf (iconDir w) with
  | Throw error => (Throw error, w)
  | Ok entries =>
      let iconNames := loadIconNames localeCompare entries in
      if (length iconNames =? 0)%nat
      then (Throw (JsError ("No icons found in " ++ svgDirRel)), w)
      else
        let html := renderPage iconNames in
        match outputFile w with
        | OutNoDirectory => (Throw (ErrnoException "ENOENT"), w)
        | _ =>
            match pageWriteFault html with
            | Some (error, remains) =>
                (Throw error, mkBrowserWorld (iconDir w) remains (browserLog w))
            | None =>
                (Ok tt,
                 mkBrowserWorld (iconDir w) (OutFile html)
                   (browserLog w ++
                    [LogWrote (length iconNames) outputPathRel; LogOpenHint]))
            end
        end
  end.

End Browser.

(** ** Capitalisations *)

(** The lower-case form of an ASCII letter; every other code unit is
    left as it is. *)
Definition toLowerCase1 (c : N) : N := if isUpper c then c + 32 else c.

(** [ext] is [.svg] in some capitalisation. *)
Definition isSvgCapitalisation (ext : jsstring) : Prop :=
  List.map toLowerCase1 ext = dotSvg.

(** The events that the build step can produce. *)
Definition isBuildEvent (e : Event) : bool :=
  match e with
  | ERm _ | EMkdir _ | EWriteFile _ _ => true
  | ELog (LogNoSvgIcons _) | ELog (LogTransforming _) | ELog (LogGenerated _ _) =>
      true
  | _ => false
  end.

(** * Properties *)

(** ** Worked examples of the model *)

Example split_ex1 : split (js "-a--b-") = [[]; js "a"; js "b"; []].
Proof. reflexivity. Qed.
Example split_ex2 : split (js "a.b") = [js "a"; js "b"].
Proof. reflexivity. Qed.
Example split_ex3 : split [] = [[]].
Proof. reflexivity. Qed.
Example name_ex1 : toComponentName (js "arrow-up.svg") = js "ArrowUpIcon".
Proof. reflexivity. Qed.
Example name_ex2 : toComponentName (js "2-circles.svg") = js "Icon2Circles".
Proof. reflexivity. Qed.
Example name_ex3 : toComponentName (js "x.SVG") = js "XIcon".
Proof. reflexivity. Qed.
Example name_ex4 : toComponentName (js "svg") = js "SvgIcon".
Proof. reflexivity. Qed.

(** ** Character classes *)

Lemma isLetter_isAlnum c : isLetter c = true -> isAlnum c = true.
Proof.
  unfold isLetter, isAlnum.
  destruct (isUpper c), (isLower c); simpl; congruence.
Qed.

Lemma toUpperCase1_alnum c : alnum c -> alnum (toUpperCase1 c).
Proof.
  unfold alnum, toUpperCase1. intros H.
  destruct (isLower c) eqn:Hl; [|exact H].
  unfold isAlnum, isLower, isUpper, isDigit in *.
  apply andb_true_iff in Hl as [H1 H2].
  apply N.leb_le in H1, H2.
  assert (Hu : (65 <=? c - 32) && (c - 32 <=? 90) = true).
  { apply andb_true_iff; split; apply N.leb_le; lia. }
  rewrite Hu. rewrite orb_true_r. reflexivity.
Qed.

Lemma Icon_alnum : Forall alnum Icon.
Proof. repeat constructor. Qed.

(** ** [split] and [parts] *)

Lemma split_cons_alnum c r :
  alnum c -> exists h t, split r = h :: t /\ split (c :: r) = (c :: h) :: t.
Proof.
  intros Hc. simpl. rewrite Hc.
  assert (Hne : exists h t, split r = h :: t).
  { clear. induction r as [|d r IH]; simpl; [eauto|].
    destruct (isAlnum d).
    - destruct IH as (h & t & ->). simpl. eauto.
    - destruct r as [|e r']; [eauto|].
      destruct (isAlnum e); eauto. }
  destruct Hne as (h & t & E). rewrite E. simpl. eauto.
Qed.

Lemma split_cons_sep c r :
  separator c ->
  exists t, split (c :: r) = [] :: t /\ List.filter truthy t = parts r.
Proof.
  revert c. induction r as [|d r IH]; intros c Hc.
  - simpl. rewrite Hc. exists [[]]. split; reflexivity.
  - change (split (c :: d :: r))
      with (if isAlnum c then consHead c (split (d :: r))
            else if isAlnum d then [] :: split (d :: r) else split (d :: r)).
    rewrite Hc. destruct (isAlnum d) eqn:Hd.
    + exists (split (d :: r)). split; reflexivity.
    + destruct (IH d Hd) as (t & E & Ht).
      exists t. split; [exact E|].
      unfold parts. rewrite E. reflexivity.
Qed.

Lemma parts_cons_sep c r : separator c -> parts (c :: r) = parts r.
Proof.
  intros Hc. destruct (split_cons_sep c r Hc) as (t & E & Ht).
  unfold parts at 1. rewrite E. exact Ht.
Qed.

Lemma parts_separators seps v :
  Forall separator seps -> parts (seps ++ v) = parts v.
Proof.
  induction 1 as [|c seps Hc _ IH]; [reflexivity|].
  simpl. rewrite parts_cons_sep by exact Hc. exact IH.
Qed.

(** Every segment that [split] returns consists of letters and digits. *)
Lemma split_parts_alnum s : Forall (Forall alnum) (split s).
Proof.
  induction s as [|c r IH].
  - repeat constructor.
  - destruct (isAlnum c) eqn:Hc.
    + destruct (split_cons_alnum c r Hc) as (h & t & E & ->).
      rewrite E in IH. inversion IH; subst.
      constructor; [constructor; assumption | assumption].
    + destruct (split_cons_sep c r Hc) as (t & E & _).
      simpl in *. rewrite Hc in *.
      destruct r as [|d r']; [repeat constructor|].
      destruct (isAlnum d); [constructor; [constructor | exact IH] | exact IH].
Qed.

(** A separator in the middle: the segments on its two sides are
    independent of each other. *)
Lemma split_app_sep u d w :
  separator d ->
  exists h t t',
    split u = h :: t /\ split (u ++ d :: w) = h :: t' /\
    List.filter truthy t' = List.filter truthy t ++ parts (d :: w).
Proof.
  intros Hd. induction u as [|c u IH].
  - destruct (split_cons_sep d w Hd) as (t' & E & Ht).
    exists [], [], t'. simpl app. rewrite E.
    repeat split. unfold parts. rewrite E. reflexivity.
  - destruct IH as (h & t & t' & E1 & E2 & Ht).
    destruct (isAlnum c) eqn:Hc.
    + destruct (split_cons_alnum c u Hc) as (h1 & t1 & F1 & G1).
      destruct (split_cons_alnum c (u ++ d :: w) Hc) as (h2 & t2 & F2 & G2).
      rewrite E1 in F1. rewrite E2 in F2.
      injection F1 as <- <-. injection F2 as <- <-.
      exists (c :: h), t, t'. simpl app. rewrite G1, G2. auto.
    + destruct (split_cons_sep c u Hc) as (t1 & G1 & P1).
      destruct (split_cons_sep c (u ++ d :: w) Hc) as (t2 & G2 & P2).
      exists [], t1, t2. simpl app. rewrite G1, G2.
      repeat split. rewrite P1, P2. unfold parts at 1 2.
      rewrite E1, E2. simpl. rewrite Ht.
      destruct (truthy h); reflexivity.
Qed.

Lemma parts_app_sep u seps v :
  seps <> [] -> Forall separator seps ->
  parts (u ++ seps ++ v) = parts u ++ parts v.
Proof.
  intros Hne Hs. destruct seps as [|d seps]; [congruence|].
  inversion Hs as [|? ? Hd Hs']; subst.
  simpl app.
  destruct (split_app_sep u d (seps ++ v) Hd) as (h & t & t' & E1 & E2 & Ht).
  unfold parts at 1 2. rewrite E1, E2. simpl. rewrite Ht.
  rewrite (parts_cons_sep d _ Hd), (parts_separators seps v Hs').
  destruct (truthy h); reflexivity.
Qed.

Lemma parts_all_separators s : Forall separator s -> parts s = [].
Proof.
  intros Hs. rewrite <- (app_nil_r s). rewrite parts_separators by exact Hs.
  reflexivity.
Qed.

Lemma parts_alnum s : Forall (Forall alnum) (parts s).
Proof.
  unfold parts. apply Forall_forall. intros p Hp.
  apply list_elem_of_In, filter_In in Hp as [Hp _].
  pose proof (split_parts_alnum s) as H.
  rewrite Forall_forall in H. apply H, list_elem_of_In, Hp.
Qed.

(** ** [stripSvgExt] *)

Lemma stripSvgExt_dotSvg s : stripSvgExt (s ++ dotSvg) = s.
Proof.
  unfold stripSvgExt, dotSvg. 
  change (js ".svg") with [46; 115; 118; 103].
  rewrite rev_app_distr. simpl.
  apply rev_involutive.
Qed.

(** ** The raw name *)

Lemma capitalize_alnum p : Forall alnum p -> Forall alnum (capitalize p).
Proof.
  destruct 1 as [|c p Hc Hp]; simpl; constructor; auto using toUpperCase1_alnum.
Qed.

Lemma rawName_alnum fileName : Forall alnum (rawName fileName).
Proof.
  unfold rawName.
  pose proof (parts_alnum (stripSvgExt fileName)) as H.
  induction H as [|p ps Hp _ IH]; simpl; [constructor|].
  apply Forall_app. split; [apply capitalize_alnum, Hp | exact IH].
Qed.

Lemma safeName_alnum fileName : Forall alnum (safeName fileName).
Proof.
  unfold safeName. pose proof (rawName_alnum fileName) as H.
  destruct (rawName fileName); [apply Icon_alnum | exact H].
Qed.

Lemma safeName_nonempty fileName : safeName fileName <> [].
Proof.
  unfold safeName. destruct (rawName fileName); discriminate.
Qed.

(** ** The name deriver *)

(** C2: for every file name, [toComponentName] returns a non-empty string
    whose first code unit is an ASCII letter and whose other code units
    are ASCII letters or digits.  The function has no failure path: it is
    a total function of its argument. *)
Theorem toComponentName_identifier (fileName : jsstring) :
  exists c rest,
    toComponentName fileName = c :: rest /\
    isLetter c = true /\
    Forall (fun d => isAlnum d = true) rest.
Proof.
  unfold toComponentName.
  pose proof (safeName_alnum fileName) as Hs.
  pose proof (safeName_nonempty fileName) as Hne.
  destruct (safeName fileName) as [|c safe]; [congruence|].
  simpl startsWithLetter. destruct (isLetter c) eqn:Hc.
  - exists c, (safe ++ Icon). repeat split; [exact Hc|].
    inversion Hs; subst. apply Forall_app. split; [assumption|apply Icon_alnum].
  - exists 73, (js "con" ++ c :: safe). repeat split.
    apply Forall_app. split; [repeat constructor | exact Hs].
Qed.

(** C3: when the base of the file name (the name without its extension)
    has no ASCII letter and no digit, the concatenation is empty, the
    fallback token replaces it, and the result is the one identifier
    [IconIcon]. *)
Theorem toComponentName_fallback (fileName : jsstring) :
  Forall (fun c => isAlnum c = false) (stripSvgExt fileName) ->
  rawName fileName = [] /\
  safeName fileName = Icon /\
  toComponentName fileName = js "IconIcon".
Proof.
  intros Hsep.
  assert (Hraw : rawName fileName = []).
  { unfold rawName. rewrite parts_all_separators by exact Hsep. reflexivity. }
  assert (Hsafe : safeName fileName = Icon).
  { unfold safeName. rewrite Hraw. reflexivity. }
  repeat split; [exact Hraw | exact Hsafe |].
  unfold toComponentName. rewrite Hsafe. reflexivity.
Qed.

Lemma toComponentName_fallback_witness :
  (toComponentName (js ".svg") = js "IconIcon") /\
  (toComponentName (js "___.svg") = js "IconIcon").
Proof.
  split.
  - apply (toComponentName_fallback (js ".svg")). constructor.
  - apply (toComponentName_fallback (js "___.svg")).
    repeat constructor.
Defined.

(** C4: when the raw name (the concatenation of the capitalised
    segments) starts with an ASCII letter the token is appended to it;
    when it starts with anything else the token is put in front of it,
    and the result then starts with the token's letter; an empty raw name
    is replaced by the fallback before the token is added.  [circle.svg]
    gives [Circle] followed by the token; [1-circle.svg] gives the token
    followed by [1Circle]. *)
Theorem toComponentName_affix :
  (forall fileName,
     (startsWithLetter (rawName fileName) = true ->
      toComponentName fileName = rawName fileName ++ Icon) /\
     (rawName fileName <> [] ->
      startsWithLetter (rawName fileName) = false ->
      toComponentName fileName = Icon ++ rawName fileName /\
      startsWithLetter (toComponentName fileName) = true) /\
     (rawName fileName = [] ->
      toComponentName fileName = Icon ++ Icon)) /\
  (rawName (js "circle.svg") = js "Circle" /\
   toComponentName (js "circle.svg") = js "Circle" ++ Icon) /\
  (rawName (js "1-circle.svg") = js "1Circle" /\
   toComponentName (js "1-circle.svg") = Icon ++ js "1Circle" /\
   toComponentName (js "1-circle.svg") <> js "1Circle" ++ Icon /\
   startsWithLetter (toComponentName (js "1-circle.svg")) = true).
Proof.
  split; [|split].
  - intros fileName. unfold toComponentName, safeName.
    destruct (rawName fileName) as [|c raw] eqn:E.
    + split; [discriminate | split; [congruence | reflexivity]].
    + simpl startsWithLetter. split; [|split].
      * intros ->. reflexivity.
      * intros _ Hc. rewrite Hc. split; reflexivity.
      * discriminate.
  - split; reflexivity.
  - repeat split; try reflexivity. discriminate.
Qed.

Lemma toComponentName_affix_witness :
  toComponentName (js "arrow-up.svg") = rawName (js "arrow-up.svg") ++ Icon /\
  toComponentName (js "2-circles.svg") = Icon ++ rawName (js "2-circles.svg") /\
  toComponentName (js "--.svg") = Icon ++ Icon.
Proof.
  split; [|split].
  - apply (proj1 (proj1 toComponentName_affix (js "arrow-up.svg"))).
    reflexivity.
  - apply (proj1 (proj2 (proj1 toComponentName_affix (js "2-circles.svg")))).
    + discriminate.
    + reflexivity.
  - apply (proj2 (proj2 (proj1 toComponentName_affix (js "--.svg")))).
    reflexivity.
Defined.

(** C5: a non-empty run of separators between two pieces of a file name
    contributes nothing to the identifier, whatever the separators are;
    so [a-b.svg], [a_b.svg] and [a.b.svg] derive the same identifier. *)
Theorem toComponentName_separators :
  (toComponentName (js "a-b.svg") = toComponentName (js "a_b.svg") /\
   toComponentName (js "a_b.svg") = toComponentName (js "a.b.svg")) /\
  (forall u v seps1 seps2 : jsstring,
     seps1 <> [] -> seps2 <> [] ->
     Forall (fun c => isAlnum c = false) seps1 ->
     Forall (fun c => isAlnum c = false) seps2 ->
     toComponentName (u ++ seps1 ++ v ++ dotSvg) =
     toComponentName (u ++ seps2 ++ v ++ dotSvg)).
Proof.
  split; [split; reflexivity|].
  intros u v seps1 seps2 Hne1 Hne2 Hs1 Hs2.
  unfold toComponentName, safeName, rawName.
  replace (u ++ seps1 ++ v ++ dotSvg) with ((u ++ seps1 ++ v) ++ dotSvg)
    by (rewrite <- !app_assoc; reflexivity).
  replace (u ++ seps2 ++ v ++ dotSvg) with ((u ++ seps2 ++ v) ++ dotSvg)
    by (rewrite <- !app_assoc; reflexivity).
  rewrite !stripSvgExt_dotSvg.
  rewrite (parts_app_sep u seps1 v Hne1 Hs1).
  rewrite (parts_app_sep u seps2 v Hne2 Hs2).
  reflexivity.
Qed.

Lemma toComponentName_separators_witness :
  toComponentName (js "arrow" ++ js "-" ++ js "up" ++ dotSvg) =
  toComponentName (js "arrow" ++ js "__." ++ js "up" ++ dotSvg).
Proof.
  apply (proj2 toComponentName_separators
           (js "arrow") (js "up") (js "-") (js "__.")).
  - discriminate.
  - discriminate.
  - repeat constructor.
  - repeat constructor.
Defined.

(** ** The input enumerator *)

Lemma endsWith_true s suffix :
  endsWith s suffix = true <-> exists stem, s = stem ++ suffix.
Proof.
  unfold endsWith. split.
  - destruct (length suffix <=? length s)%nat eqn:Hlen; [|discriminate].
    intros H. apply bool_decide_eq_true in H.
    exists (take (length s - length suffix) s).
    rewrite <- (take_drop (length s - length suffix) s) at 1.
    f_equal. exact H.
  - intros [stem ->]. rewrite length_app.
    replace (length suffix <=? length stem + length suffix)%nat with true
      by (symmetry; apply Nat.leb_le; lia).
    apply bool_decide_eq_true.
    replace (length stem + length suffix - length suffix)%nat
      with (length stem) by lia.
    apply drop_app_length.
Qed.

Lemma isSvgFile_true entry :
  isSvgFile entry = true <->
  kind entry = KFile /\ exists stem, name entry = stem ++ dotSvg.
Proof.
  unfold isSvgFile. rewrite andb_true_iff, endsWith_true.
  split; intros [Hk Hn]; split; try exact Hn.
  - destruct (kind entry); simpl in Hk; congruence.
  - rewrite Hk. reflexivity.
Qed.

Lemma sortInsert_In cmp a l x : In x (sortInsert cmp a l) <-> x = a \/ In x l.
Proof.
  induction l as [|b l IH]; simpl.
  - intuition.
  - destruct (cmp a b <=? 0)%Z; simpl; [intuition|].
    rewrite IH. intuition.
Qed.

Lemma sortWith_In cmp l x : In x (sortWith cmp l) <-> In x l.
Proof.
  induction l as [|a l IH]; simpl; [reflexivity|].
  rewrite sortInsert_In. unfold sortWith in IH. rewrite IH. intuition.
Qed.

Lemma sortInsert_perm cmp a l : sortInsert cmp a l ≡ₚ a :: l.
Proof.
  induction l as [|b l IH]; simpl; [reflexivity|].
  destruct (cmp a b <=? 0)%Z; [reflexivity|].
  rewrite IH. apply Permutation_swap.
Qed.

Lemma sortWith_perm cmp l : sortWith cmp l ≡ₚ l.
Proof.
  induction l as [|a l IH]; simpl; [reflexivity|].
  rewrite sortInsert_perm. fold (sortWith cmp l). rewrite IH. reflexivity.
Qed.

(** C1, as the code has it: the enumerator returns exactly the entries
    that are regular files and whose name ends with the four code units
    [.svg] in lower case; the build step keeps them in listing order, the
    browser's enumerator returns their names, each as often as it is
    listed.  Of the example listing only the regular file [icon.svg] is
    returned. *)
Theorem svgFiles_exact :
  (forall entries entry,
     In entry (svgFiles entries) <->
     In entry entries /\ kind entry = KFile /\
     exists stem, name entry = stem ++ js ".svg") /\
  (forall entries, sublist (svgFiles entries) entries) /\
  (forall localeCompare entries,
     loadIconNames localeCompare entries ≡ₚ List.map name (svgFiles entries)) /\
  (forall localeCompare entries fileName,
     In fileName (loadIconNames localeCompare entries) <->
     exists entry, In entry (svgFiles entries) /\ name entry = fileName) /\
  svgFiles listing4 = [mkDirent (js "icon.svg") KFile (js "<svg/>")].
Proof.
  split; [|split; [|split; [|split]]].
  - intros entries entry. unfold svgFiles.
    rewrite filter_In, isSvgFile_true. reflexivity.
  - intros entries. unfold svgFiles.
    induction entries as [|e l IH]; simpl; [constructor|].
    destruct (isSvgFile e); [apply sublist_skip | apply sublist_cons]; exact IH.
  - intros cmp entries. unfold loadIconNames. apply sortWith_perm.
  - intros cmp entries fileName. unfold loadIconNames.
    rewrite sortWith_In, in_map_iff. unfold svgFiles.
    split; intros (e & H1 & H2); exists e; tauto.
  - reflexivity.
Qed.

(** C1 as stated fails: [icon.SVG] is a regular file of the listing and
    carries the extension in another capitalisation, yet the enumerator
    leaves it out and returns one entry, not two. *)
Lemma svgFiles_case_sensitive :
  In iconUpper listing4 /\
  spec_isSvgFile_ci iconUpper = true /\
  ~ In iconUpper (svgFiles listing4) /\
  length (svgFiles listing4) = 1%nat /\
  length (List.filter spec_isSvgFile_ci listing4) = 2%nat.
Proof.
  repeat split.
  - right. left. reflexivity.
  - intros [H | []]. discriminate.
Qed.

(** ** The embedded data literal *)

Lemma replaceLt_no_lt s : ~ In 60 (replaceLt s).
Proof.
  unfold replaceLt. rewrite in_flat_map. intros (c & _ & Hc).
  destruct (c =? 60) eqn:E.
  - unfold lt_escape in Hc. simpl in Hc.
    repeat (destruct Hc as [Hc | Hc]; [discriminate|]). exact Hc.
  - destruct Hc as [Hc | []]. subst c. discriminate.
Qed.

Lemma replaceLt_app a b : replaceLt (a ++ b) = replaceLt a ++ replaceLt b.
Proof. unfold replaceLt. apply flat_map_app. Qed.

(** C10: in the data literal, every [<] of the JSON text is replaced by
    the six-unit escape, so the literal holds no [<]; hence no text with
    a [<] in it, the closing script tag in particular, occurs in it, and
    the text before and after the literal in the page is the template's
    own.  An icon named [</script>] is embedded with its [<] escaped. *)
Theorem safeJson_no_lt :
  (forall iconNames, ~ In 60 (safeJson iconNames)) /\
  (forall iconNames needle,
     In 60 needle -> ~ occursIn needle (safeJson iconNames)) /\
  (forall iconNames, ~ occursIn (js "</script>") (safeJson iconNames)) /\
  (forall a b, replaceLt (a ++ [60] ++ b) = replaceLt a ++ lt_escape ++ replaceLt b) /\
  (forall t0 t1 t2 t3 countText iconPrefixJson iconNames,
     exists before after,
       renderHtml t0 t1 t2 t3 countText iconPrefixJson iconNames =
         before ++ safeJson iconNames ++ after /\
       before = t0 ++ countText (length iconNames) ++ t1 /\
       after = t2 ++ iconPrefixJson ++ t3) /\
  safeJson [js "</script>"] = [91; 34] ++ lt_escape ++ js "/script>" ++ [34; 93].
Proof.
  assert (Hno : forall iconNames needle,
            In 60 needle -> ~ occursIn needle (safeJson iconNames)).
  { intros iconNames needle Hin (pre & post & E).
    apply (replaceLt_no_lt (JSON_stringify iconNames)).
    fold (safeJson iconNames). rewrite E.
    apply in_or_app. right. apply in_or_app. left. exact Hin. }
  split; [|split; [|split; [|split; [|split]]]].
  - intros iconNames. apply replaceLt_no_lt.
  - exact Hno.
  - intros iconNames. apply Hno. simpl. auto.
  - intros a b. rewrite !replaceLt_app. reflexivity.
  - intros. eexists _, _. split; [|split; reflexivity].
    unfold renderHtml. rewrite <- !app_assoc. reflexivity.
  - reflexivity.
Qed.

Lemma safeJson_no_lt_witness :
  ~ occursIn (js "<img") (safeJson [js "<img src=x>.svg"; js "a<b.svg"]).
Proof.
  apply (proj1 (proj2 safeJson_no_lt)).
  simpl. auto.
Defined.

(** ** The directory state guard *)

Section InstallProperties.

Variable io : IOFaults.
Variable transform : jsstring -> jsstring -> Outcome jsstring.
Variable sfSymbolsSvg : PathState -> Outcome unit * PathState.
Variable prettier : DestState -> Outcome unit * DestState.

Lemma detectSvgDir_eq w :
  detectSvgDir w =
    (match svgPath w with
     | PAbsent => Ok missing
     | PDirectory _ => Ok directory
     | PFile => Ok file
     | PSpecial _ => Ok missing
     | PFault error =>
         if bool_decide (errorCode error = Some "ENOENT"%string)
         then Ok missing else Throw error
     end, w).
Proof.
  unfold detectSvgDir, bind, tryCatch, fs_stat_svgDir.
  destruct (svgPath w) as [| | | |error]; try reflexivity.
  destruct (bool_decide (errorCode error = Some "ENOENT"%string)); reflexivity.
Qed.

Lemma detectSvgDir_missing_iff w :
  fst (detectSvgDir w) = Ok missing <->
  svgPath w = PAbsent \/ (exists s, svgPath w = PSpecial s) \/
  (exists error, svgPath w = PFault error /\ errorCode error = Some "ENOENT"%string).
Proof.
  rewrite detectSvgDir_eq. simpl.
  destruct (svgPath w) as [| | | |error]; split; intros H;
    try discriminate; eauto;
    try (destruct H as [H | [[? H] | (? & H & ?)]]; discriminate).
  - right. right. exists error. split; [reflexivity|].
    destruct (bool_decide (errorCode error = Some "ENOENT"%string)) eqn:E;
      [apply bool_decide_eq_true in E; exact E | discriminate].
  - destruct H as [H | [[? H] | (e & H & Hc)]]; try discriminate.
    injection H as <-. rewrite bool_decide_eq_true_2 by exact Hc. reflexivity.
Qed.

Lemma ensureSvgIcons_eq w :
  ensureSvgIcons sfSymbolsSvg w =
    match fst (detectSvgDir w) with
    | Ok directory => (Ok tt, emit (ELog (LogSkipGeneration svgDirRel)) w)
    | Ok file =>
        (Throw (JsError (svgDirRel ++
           " exists but is not a directory. Remove it so icons can be generated.")), w)
    | Ok missing => execa_generator sfSymbolsSvg (emit (ELog LogGenerating) w)
    | Throw error => (Throw error, w)
    end.
Proof.
  unfold ensureSvgIcons, bind. rewrite detectSvgDir_eq. simpl.
  destruct (svgPath w) as [| | | |error]; try reflexivity.
  destruct (bool_decide (errorCode error = Some "ENOENT"%string)); reflexivity.
Qed.

Lemma execa_generator_trace w :
  trace (snd (execa_generator sfSymbolsSvg w)) = trace w ++ [generatorCall].
Proof.
  unfold execa_generator. destruct (sfSymbolsSvg (svgPath w)); reflexivity.
Qed.

(** C8: the guard maps a not-found probe to [missing], a directory to
    [directory] and a regular file to [file], without touching the world;
    every other probe error is thrown again as it was caught. *)
Theorem detectSvgDir_states (w : World) :
  (forall error,
     fst (fs_stat_svgDir w) = Throw error ->
     errorCode error = Some "ENOENT"%string ->
     detectSvgDir w = (Ok missing, w)) /\
  (fst (fs_stat_svgDir w) = Ok KDirectory -> detectSvgDir w = (Ok directory, w)) /\
  (fst (fs_stat_svgDir w) = Ok KFile -> detectSvgDir w = (Ok file, w)) /\
  (forall error,
     fst (fs_stat_svgDir w) = Throw error ->
     errorCode error <> Some "ENOENT"%string ->
     detectSvgDir w = (Throw error, w)).
Proof.
  rewrite detectSvgDir_eq. unfold fs_stat_svgDir.
  destruct (svgPath w) as [| | | |e]; simpl;
    repeat split; intros; try discriminate; try reflexivity.
  - match goal with H : Throw _ = Throw _ |- _ => injection H as <- end.
    simpl in *. congruence.
  - match goal with H : Throw _ = Throw _ |- _ => injection H as -> end.
    rewrite bool_decide_eq_true_2 by assumption. reflexivity.
  - match goal with H : Throw _ = Throw _ |- _ => injection H as -> end.
    rewrite bool_decide_eq_false_2 by assumption. reflexivity.
Qed.

Lemma detectSvgDir_states_witness :
  detectSvgDir (worldWith PAbsent) = (Ok missing, worldWith PAbsent) /\
  detectSvgDir (worldWith (PDirectory listing4)) =
    (Ok directory, worldWith (PDirectory listing4)) /\
  detectSvgDir (worldWith PFile) = (Ok file, worldWith PFile) /\
  detectSvgDir (worldWith (PFault (ErrnoException "EACCES"))) =
    (Throw (ErrnoException "EACCES"), worldWith (PFault (ErrnoException "EACCES"))).
Proof.
  split; [|split; [|split]].
  - apply (proj1 (detectSvgDir_states (worldWith PAbsent))
             (ErrnoException "ENOENT")); reflexivity.
  - apply (proj1 (proj2 (detectSvgDir_states (worldWith (PDirectory listing4))))).
    reflexivity.
  - apply (proj1 (proj2 (proj2 (detectSvgDir_states (worldWith PFile))))).
    reflexivity.
  - apply (proj2 (proj2 (proj2
             (detectSvgDir_states (worldWith (PFault (ErrnoException "EACCES"))))))).
    + reflexivity.
    + discriminate.
Defined.

(** C9: when the probe finds something that is neither a regular file nor
    a directory, the guard answers [missing], and [ensureSvgIcons] goes on
    to log and start the generator, with the same events as for an absent
    path. *)
Theorem special_file_reported_missing (w : World) (k : NodeKind) :
  fst (fs_stat_svgDir w) = Ok k ->
  isDirectory k = false -> isFile k = false ->
  detectSvgDir w = (Ok missing, w) /\
  ensureSvgIcons sfSymbolsSvg w =
    execa_generator sfSymbolsSvg (emit (ELog LogGenerating) w) /\
  trace (snd (ensureSvgIcons sfSymbolsSvg w)) =
    trace w ++ [ELog LogGenerating; generatorCall] /\
  generatorInvoked w (snd (ensureSvgIcons sfSymbolsSvg w)) /\
  (forall w0, pathAbsent w0 -> trace w0 = trace w ->
     trace (snd (ensureSvgIcons sfSymbolsSvg w0)) =
     trace (snd (ensureSvgIcons sfSymbolsSvg w))).
Proof.
  intros Hk Hd Hf.
  assert (Hdet : detectSvgDir w = (Ok missing, w)).
  { rewrite detectSvgDir_eq. unfold fs_stat_svgDir in Hk.
    destruct (svgPath w); simpl in Hk; try discriminate;
      injection Hk as <-; simpl in *; congruence. }
  assert (Hens : ensureSvgIcons sfSymbolsSvg w =
                 execa_generator sfSymbolsSvg (emit (ELog LogGenerating) w)).
  { rewrite ensureSvgIcons_eq, Hdet. reflexivity. }
  assert (Htr : trace (snd (ensureSvgIcons sfSymbolsSvg w)) =
                trace w ++ [ELog LogGenerating; generatorCall]).
  { rewrite Hens, execa_generator_trace. simpl. rewrite <- app_assoc. reflexivity. }
  repeat split; try assumption.
  - exists [ELog LogGenerating], []. exact Htr.
  - intros w0 (error & H1 & H2) Ht. rewrite Htr.
    rewrite ensureSvgIcons_eq.
    assert (Hm : fst (detectSvgDir w0) = Ok missing).
    { apply detectSvgDir_missing_iff. unfold fs_stat_svgDir in H1.
      destruct (svgPath w0); simpl in H1; try discriminate; auto.
      injection H1 as ->. right. right. eauto. }
    rewrite Hm, execa_generator_trace. simpl. rewrite Ht, <- app_assoc. reflexivity.
Qed.

(** C7, as the code has it: the generator is started exactly when the
    guard answers [missing], that is when the probe reports the path
    absent or finds something that is neither a directory nor a regular
    file.  For a directory the step is skipped with a log line; for a
    regular file the run throws an error whose message starts with the
    path, and the world is left as it was. *)
Theorem ensureSvgIcons_generator (w : World) :
  (generatorInvoked w (snd (ensureSvgIcons sfSymbolsSvg w)) <->
   fst (detectSvgDir w) = Ok missing) /\
  (fst (detectSvgDir w) = Ok missing <->
   pathAbsent w \/
   exists k, fst (fs_stat_svgDir w) = Ok k /\
             isDirectory k = false /\ isFile k = false) /\
  (fst (fs_stat_svgDir w) = Ok KDirectory ->
   ensureSvgIcons sfSymbolsSvg w =
     (Ok tt, emit (ELog (LogSkipGeneration svgDirRel)) w)) /\
  (fst (fs_stat_svgDir w) = Ok KFile ->
   ensureSvgIcons sfSymbolsSvg w =
     (Throw (JsError (svgDirRel ++
        " exists but is not a directory. Remove it so icons can be generated.")),
      w)).
Proof.
  split; [|split; [|split]].
  - rewrite ensureSvgIcons_eq. split.
    + intros (pre & post & E).
      destruct (fst (detectSvgDir w)) as [[| |]|error]; try reflexivity;
        simpl in E.
      * apply app_inv_head in E. destruct pre as [|? [|? ?]]; discriminate.
      * rewrite <- (app_nil_r (trace w)) in E at 1.
        apply app_inv_head in E. destruct pre; discriminate.
      * rewrite <- (app_nil_r (trace w)) in E at 1.
        apply app_inv_head in E. destruct pre; discriminate.
    + intros ->. exists [ELog LogGenerating], [].
      rewrite execa_generator_trace. simpl. rewrite <- app_assoc. reflexivity.
  - rewrite detectSvgDir_missing_iff. unfold pathAbsent, fs_stat_svgDir.
    destruct (svgPath w) as [| | |s|error]; simpl; split.
    + intros _. left. eexists. split; reflexivity.
    + auto.
    + intros [H | [[? H] | (? & H & _)]]; discriminate.
    + intros [(? & H & _) | (k & H & Hd & Hf)]; [discriminate|].
      injection H as <-. discriminate.
    + intros [H | [[? H] | (? & H & _)]]; discriminate.
    + intros [(? & H & _) | (k & H & Hd & Hf)]; [discriminate|].
      injection H as <-. discriminate.
    + intros _. right. exists (KSpecial s). auto.
    + eauto.
    + intros [H | [[? H] | (e & H & Hc)]]; try discriminate.
      injection H as <-. left. eauto.
    + intros [(e & H & Hc) | (k & H & _)]; [|discriminate].
      injection H as <-. right. right. eauto.
  - intros H. rewrite ensureSvgIcons_eq, detectSvgDir_eq.
    unfold fs_stat_svgDir in H.
    destruct (svgPath w); simpl in H; try discriminate; reflexivity.
  - intros H. rewrite ensureSvgIcons_eq, detectSvgDir_eq.
    unfold fs_stat_svgDir in H.
    destruct (svgPath w); simpl in H; try discriminate; reflexivity.
Qed.


(** ** The transform pipeline *)

Lemma fs_readFile_svg_world n w : snd (fs_readFile_svg io n w) = w.
Proof.
  unfold fs_readFile_svg. destruct (readFault io n); [reflexivity|].
  destruct (svgPath w); try reflexivity.
  destruct (List.find _ entries) as [e|]; [|reflexivity].
  destruct (isFile (kind e)); reflexivity.
Qed.

Lemma fs_readFile_svg_path n w1 w2 :
  svgPath w1 = svgPath w2 ->
  fst (fs_readFile_svg io n w1) = fst (fs_readFile_svg io n w2).
Proof.
  unfold fs_readFile_svg. intros <-. destruct (readFault io n); [reflexivity|].
  destruct (svgPath w1); try reflexivity.
  destruct (List.find _ entries) as [e|]; [|reflexivity].
  destruct (isFile (kind e)); reflexivity.
Qed.

Lemma sourceFor_path w1 w2 svg :
  svgPath w1 = svgPath w2 ->
  sourceFor io transform w1 svg = sourceFor io transform w2 svg.
Proof.
  intros H. unfold sourceFor.
  rewrite (fs_readFile_svg_path (name svg) w1 w2 H). reflexivity.
Qed.

Lemma transformOne_eq svg w :
  transformOne io transform svg w =
    match sourceFor io transform w svg with
    | Ok source => fs_writeFile_component io (componentFile svg) source w
    | Throw error => (Throw error, w)
    end.
Proof.
  unfold transformOne, sourceFor, bind.
  pose proof (fs_readFile_svg_world (name svg) w) as Hw.
  destruct (fs_readFile_svg io (name svg) w) as [[content|error] w0];
    simpl in *; subst w0; [|reflexivity].
  destruct (transform content (toComponentName (name svg))); reflexivity.
Qed.

(** One iteration in a destination directory. *)
Lemma transformOne_step svg w files :
  componentsPath w = DDir files ->
  exists r w' files',
    transformOne io transform svg w = (r, w') /\
    svgPath w' = svgPath w /\
    componentsPath w' = DDir files' /\
    (forall k, k <> componentFile svg -> files' !! k = files !! k) /\
    (forall k, is_Some (files !! k) -> is_Some (files' !! k)) /\
    match r with
    | Ok _ =>
        exists source,
          sourceFor io transform w svg = Ok source /\
          writeFault io (componentFile svg) source = None /\
          files' = <[componentFile svg := source]> files /\
          trace w' = trace w ++ [writeEvent svg]
    | Throw error =>
        (sourceFor io transform w svg = Throw error /\ w' = w) \/
        (exists source remains,
           sourceFor io transform w svg = Ok source /\
           writeFault io (componentFile svg) source = Some (error, remains) /\
           trace w' = trace w ++ [writeEvent svg])
    end.
Proof.
  intros Hd. rewrite transformOne_eq.
  destruct (sourceFor io transform w svg) as [source|error] eqn:Hsrc.
  - unfold fs_writeFile_component. rewrite Hd.
    destruct (writeFault io (componentFile svg) source)
      as [[error [remains|]]|] eqn:Hw.
    + eexists _, _, _. split; [reflexivity|].
      repeat split; try reflexivity.
      * intros k Hk. apply lookup_insert_ne. congruence.
      * intros k Hk. destruct (decide (componentFile svg = k)) as [<-|Hne];
          [rewrite lookup_insert_eq; eauto
          | rewrite lookup_insert_ne by exact Hne; exact Hk].
      * right. exists source, (Some remains). auto.
    + eexists _, _, _. split; [reflexivity|].
      repeat split; try reflexivity; auto.
      right. exists source, None. auto.
    + eexists _, _, _. split; [reflexivity|].
      repeat split; try reflexivity.
      * intros k Hk. apply lookup_insert_ne. congruence.
      * intros k Hk. destruct (decide (componentFile svg = k)) as [<-|Hne];
          [rewrite lookup_insert_eq; eauto
          | rewrite lookup_insert_ne by exact Hne; exact Hk].
      * exists source. auto.
  - exists (Throw error), w, files. repeat split; auto.
Qed.

(** The loop, in full: which icons were written before it returned or
    threw, which writes were attempted, and what the destination holds. *)
Lemma forOf_transformOne_run svgs : forall w files,
  componentsPath w = DDir files ->
  exists r w' files' done rest attempted,
    forOf svgs (transformOne io transform) w = (r, w') /\
    svgs = done ++ rest /\
    svgPath w' = svgPath w /\
    componentsPath w' = DDir files' /\
    trace w' = trace w ++ List.map writeEvent attempted /\
    (forall s, In s done ->
       exists source,
         sourceFor io transform w s = Ok source /\
         writeFault io (componentFile s) source = None) /\
    match r with
    | Ok _ => rest = [] /\ attempted = done
    | Throw error =>
        exists bad rest',
          rest = bad :: rest' /\
          ((sourceFor io transform w bad = Throw error /\ attempted = done) \/
           (exists source remains,
              sourceFor io transform w bad = Ok source /\
              writeFault io (componentFile bad) source = Some (error, remains) /\
              attempted = done ++ [bad]))
    end /\
    (forall k, (forall s, In s attempted -> componentFile s <> k) ->
       files' !! k = files !! k) /\
    (r = Ok tt ->
     forall pre s post source,
       svgs = pre ++ s :: post ->
       (forall s', In s' post -> componentFile s' <> componentFile s) ->
       sourceFor io transform w s = Ok source ->
       files' !! componentFile s = Some source) /\
    (forall k, is_Some (files !! k) -> is_Some (files' !! k)) /\
    (forall s, In s done -> is_Some (files' !! componentFile s)) /\
    (forall k, is_Some (files' !! k) ->
       is_Some (files !! k) \/ exists s, In s attempted /\ k = componentFile s).
Proof.
  induction svgs as [|s0 svgs IH]; intros w files Hd.
  - exists (Ok tt), w, files, [], [], []. simpl. rewrite app_nil_r.
    repeat split; auto.
    + intros s [].
    + intros _ [|? ?] s post source E; discriminate.
    + intros s [].
  - simpl forOf. unfold bind at 1.
    destruct (transformOne_step s0 w files Hd)
      as (r0 & w1 & files1 & E0 & Hs0 & Hc0 & Hkeep0 & Hmono0 & Hr0).
    rewrite E0. destruct r0 as [[]|error].
    + destruct Hr0 as (source0 & Hsrc0 & Hw0 & -> & Ht0).
      destruct (IH w1 _ Hc0)
        as (r & w' & files' & done & rest & att & E & Hsplit & Hs & Hc & Ht
            & Hall & Hr & Hkeep & Hlast & Hmono & Hin' & Hdom).
      exists r, w', files', (s0 :: done), rest, (s0 :: att). rewrite E.
      split; [reflexivity|]. split; [simpl; congruence|].
      split; [congruence|]. split; [exact Hc|].
      split; [rewrite Ht, Ht0; simpl; rewrite <- app_assoc; reflexivity|].
      split; [|split; [|split; [|split; [|split; [|split]]]]].
      * intros s [<- | Hin]; [eauto|].
        destruct (Hall s Hin) as (source & H1 & H2).
        exists source. rewrite <- (sourceFor_path w1 w s Hs0). auto.
      * destruct r as [[]|error].
        -- destruct Hr as [-> ->]. auto.
        -- destruct Hr as (bad & rest' & -> & Hbad).
           exists bad, rest'. split; [reflexivity|].
           rewrite <- (sourceFor_path w1 w bad Hs0).
           destruct Hbad as [[H1 ->] | (source & remains & H1 & H2 & ->)];
             [left; auto | right; exists source, remains; auto].
      * intros k Hk. rewrite Hkeep.
        -- apply lookup_insert_ne. apply Hk. left. reflexivity.
        -- intros s Hin. apply Hk. right. exact Hin.
      * intros Hok pre s post source Hsvgs Hpost Hsource.
        destruct pre as [|p pre]; simpl in Hsvgs; injection Hsvgs as <- ->.
        -- rewrite Hkeep.
           ++ rewrite lookup_insert_eq. congruence.
           ++ subst r. destruct Hr as [-> ->]. rewrite app_nil_r in Hsplit.
              subst done. exact Hpost.
        -- apply (Hlast Hok pre s post source eq_refl Hpost).
           rewrite (sourceFor_path w1 w s Hs0). exact Hsource.
      * intros k Hk. apply Hmono.
        destruct (decide (componentFile s0 = k)) as [<- | Hne];
          [rewrite lookup_insert_eq; eauto
          | rewrite lookup_insert_ne by exact Hne; exact Hk].
      * intros s [<- | Hin]; [|apply Hin', Hin].
        apply Hmono. rewrite lookup_insert_eq. eauto.
      * intros k Hk. destruct (Hdom k Hk) as [Hold | (s & Hin & ->)].
        -- destruct (decide (componentFile s0 = k)) as [<- | Hne].
           ++ right. exists s0. split; [left; reflexivity | reflexivity].
           ++ left. rewrite lookup_insert_ne in Hold by exact Hne. exact Hold.
        -- right. exists s. split; [right; exact Hin | reflexivity].
    + destruct Hr0 as [[Hsrc ->] | (source & remains & Hsrc & Hw & Ht0)].
      * rewrite Hd in Hc0. injection Hc0 as <-.
        exists (Throw error), w, files, [], (s0 :: svgs), [].
        simpl. rewrite app_nil_r. repeat split; auto.
        -- intros s [].
        -- exists s0, svgs. auto.
        -- discriminate.
        -- intros s [].
      * exists (Throw error), w1, files1, [], (s0 :: svgs), [s0].
        repeat split; auto.
        -- intros s [].
        -- exists s0, svgs. split; [reflexivity|]. right.
           exists source, remains. auto.
        -- intros k Hk. apply Hkeep0. intros ->. apply (Hk s0); [left|]; reflexivity.
        -- discriminate.
        -- intros s [].
        -- intros k Hk. destruct (decide (k = componentFile s0)) as [-> | Hne].
           ++ right. exists s0. split; [left; reflexivity | reflexivity].
           ++ left. rewrite <- (Hkeep0 k Hne). exact Hk.
Qed.

Lemma buildReactComponents_guard w :
  buildReactComponents io transform w =
    match fst (detectSvgDir w) with
    | Ok directory =>
        match fs_readdir_svgDir w with
        | (Ok entries, _) =>
            match svgFiles entries with
            | [] => (Ok tt, emit (ELog (LogNoSvgIcons svgDirRel)) w)
            | svg0 :: more =>
                (fs_rm_componentsDir ;;;
                 fs_mkdir_componentsDir io ;;;
                 console_log (LogTransforming (length (svg0 :: more))) ;;;
                 forOf (svg0 :: more) (transformOne io transform) ;;;
                 console_log (LogGenerated (length (svg0 :: more))
                                componentsDirRel)) w
            end
        | (Throw error, _) => (Throw error, w)
        end
    | Ok _ =>
        (Throw (JsError ("SVG icon directory not found at " ++ svgDirRel ++
                         ". Generation may have failed.")), w)
    | Throw error => (Throw error, w)
    end.
Proof.
  unfold buildReactComponents. unfold bind at 1. rewrite detectSvgDir_eq.
  destruct (svgPath w) as [|entries| | |error] eqn:Hp; simpl fst; cbv iota beta;
    try reflexivity.
  - unfold bind at 1. unfold fs_readdir_svgDir. rewrite Hp.
    destruct (svgFiles entries) as [|svg0 svgs]; reflexivity.
  - destruct (bool_decide (errorCode error = Some "ENOENT"%string)); reflexivity.
Qed.

Lemma buildReactComponents_empty w entries :
  svgPath w = PDirectory entries -> svgFiles entries = [] ->
  buildReactComponents io transform w =
    (Ok tt, emit (ELog (LogNoSvgIcons svgDirRel)) w).
Proof.
  intros Hp Hnone. rewrite buildReactComponents_guard, detectSvgDir_eq.
  unfold fs_readdir_svgDir. rewrite Hp. cbn [fst]. rewrite Hnone. reflexivity.
Qed.

(** A destination that cannot be removed stops the run at [fs.rm]. *)
Lemma buildReactComponents_rm_fails w entries error :
  svgPath w = PDirectory entries -> svgFiles entries <> [] ->
  componentsPath w = DFault error -> isENOENT error = false ->
  buildReactComponents io transform w =
    (Throw error, emit (ERm componentsDirRel) w).
Proof.
  intros Hp Hne Hd He. rewrite buildReactComponents_guard, detectSvgDir_eq.
  unfold fs_readdir_svgDir. rewrite Hp. cbn [fst].
  destruct (svgFiles entries) as [|svg0 svgs]; [congruence|].
  unfold bind at 1. unfold fs_rm_componentsDir. rewrite Hd, He. reflexivity.
Qed.

(** After a successful [fs.rm]: the creation of the directory, then the
    loop. *)
Lemma buildReactComponents_rm_ok w entries :
  svgPath w = PDirectory entries -> svgFiles entries <> [] ->
  removable (componentsPath w) ->
  buildReactComponents io transform w =
    match mkdirFault io with
    | Some error =>
        (Throw error,
         emit (EMkdir componentsDirRel)
           (emit (ERm componentsDirRel) (setComponentsPath DAbsent w)))
    | None =>
        match forOf (svgFiles entries) (transformOne io transform)
                (loopStart (length (svgFiles entries)) w) with
        | (Ok _, w') =>
            (Ok tt, emit (ELog (LogGenerated (length (svgFiles entries))
                                  componentsDirRel)) w')
        | (Throw error, w') => (Throw error, w')
        end
    end.
Proof.
  intros Hp Hne Hrm. rewrite buildReactComponents_guard, detectSvgDir_eq.
  unfold fs_readdir_svgDir. rewrite Hp. cbn [fst].
  destruct (svgFiles entries) as [|svg0 svgs]; [congruence|].
  unfold bind at 1.
  assert (Erm : fs_rm_componentsDir w =
                (Ok tt, emit (ERm componentsDirRel) (setComponentsPath DAbsent w))).
  { unfold fs_rm_componentsDir.
    destruct (componentsPath w) as [| | |error] eqn:Hd; try reflexivity.
    rewrite (Hrm error eq_refl). reflexivity. }
  rewrite Erm. unfold bind at 1. unfold fs_mkdir_componentsDir at 1.
  cbn [componentsPath setComponentsPath emit].
  destruct (mkdirFault io) as [error|]; [reflexivity|].
  unfold bind at 1. unfold console_log at 1.
  unfold bind at 1. fold (loopStart (length (svg0 :: svgs)) w).
  destruct (forOf (svg0 :: svgs) (transformOne io transform) _)
    as [[[]|error] w']; reflexivity.
Qed.

Lemma removable_dec d :
  removable d \/ exists error, d = DFault error /\ isENOENT error = false.
Proof.
  destruct d as [| | |error]; try (left; intros e H; discriminate).
  destruct (isENOENT error) eqn:E.
  - left. intros e H. injection H as <-. exact E.
  - right. eauto.
Qed.


End InstallProperties.
(** ** Concrete runs *)

Lemma special_file_reported_missing_witness :
  detectSvgDir (worldWith (PSpecial Fifo)) = (Ok missing, worldWith (PSpecial Fifo)) /\
  generatorInvoked (worldWith (PSpecial Fifo))
    (snd (ensureSvgIcons generatorFills (worldWith (PSpecial Fifo)))).
Proof.
  pose proof (special_file_reported_missing generatorFills
                (worldWith (PSpecial Fifo)) (KSpecial Fifo)
                eq_refl eq_refl eq_refl) as H.
  split; [exact (proj1 H) | exact (proj1 (proj2 (proj2 (proj2 H))))].
Defined.

Lemma ensureSvgIcons_generator_witness :
  ensureSvgIcons generatorFills (worldWith (PDirectory listing4)) =
    (Ok tt, emit (ELog (LogSkipGeneration svgDirRel))
              (worldWith (PDirectory listing4))) /\
  ensureSvgIcons generatorFills (worldWith PFile) =
    (Throw (JsError
       "src/sf-symbols exists but is not a directory. Remove it so icons can be generated."),
     worldWith PFile).
Proof.
  split.
  - apply (proj1 (proj2 (proj2
      (ensureSvgIcons_generator generatorFills (worldWith (PDirectory listing4)))))).
    reflexivity.
  - apply (proj2 (proj2 (proj2
      (ensureSvgIcons_generator generatorFills (worldWith PFile))))).
    reflexivity.
Defined.

(** C7 as stated fails: with a socket at the path the probe succeeds, so
    the path is not absent, and the generator is started all the same. *)
Lemma generator_started_for_socket :
  ~ (generatorInvoked (worldWith (PSpecial Socket))
       (snd (ensureSvgIcons generatorFills (worldWith (PSpecial Socket)))) <->
     pathAbsent (worldWith (PSpecial Socket))).
Proof.
  intros [Hto _].
  destruct Hto as (error & H & _).
  - exists [ELog LogGenerating], []. reflexivity.
  - discriminate.
Qed.


Example buildReactComponents_stale_gone :
  exists w',
    buildReactComponents noFaults transformEcho staleWorld = (Ok tt, w') /\
    componentsPath w' = DDir {[ js "IconIcon.tsx" := js "<svg/>IconIcon" ]} /\
    trace w' = [ERm componentsDirRel; EMkdir componentsDirRel;
                ELog (LogTransforming 1);
                EWriteFile componentsDirRel (js "IconIcon.tsx");
                ELog (LogGenerated 1 componentsDirRel)].
Proof.
  exists (snd (buildReactComponents noFaults transformEcho staleWorld)).
  repeat split; vm_compute; reflexivity.
Qed.

(** A regular file in the place of [dist]: the removal fails, the run
    stops there, and nothing is created or written. *)
Example buildReactComponents_rm_rejects :
  buildReactComponents noFaults transformEcho
    (worldOf (PDirectory listing4) (DFault (ErrnoException "ENOTDIR"))) =
  (Throw (ErrnoException "ENOTDIR"),
   mkWorld (PDirectory listing4) (DFault (ErrnoException "ENOTDIR"))
     [ERm componentsDirRel]).
Proof. vm_compute. reflexivity. Qed.

(** * Further properties of the code *)

(** ** More on the name deriver *)

Lemma toUpperCase1_idem c : toUpperCase1 (toUpperCase1 c) = toUpperCase1 c.
Proof.
  unfold toUpperCase1. destruct (isLower c) eqn:Hl; [|rewrite Hl; reflexivity].
  unfold isLower in *. apply andb_true_iff in Hl as [H1 H2].
  apply N.leb_le in H1, H2.
  replace ((97 <=? c - 32) && (c - 32 <=? 122)) with false; [reflexivity|].
  symmetry. apply andb_false_iff. left. apply N.leb_gt. lia.
Qed.

Lemma toUpperCase1_not_lower c : isLower c = false -> toUpperCase1 c = c.
Proof. unfold toUpperCase1. intros ->. reflexivity. Qed.

Lemma isLower_isAlnum c : isLower c = true -> isAlnum c = true.
Proof. unfold isAlnum. intros ->. reflexivity. Qed.

Lemma concat_filter_truthy (l : list jsstring) :
  List.concat (List.filter truthy l) = List.concat l.
Proof.
  induction l as [|p l IH]; [reflexivity|].
  simpl. destruct p; simpl; rewrite IH; reflexivity.
Qed.

Lemma concat_split s : List.concat (split s) = List.filter isAlnum s.
Proof.
  induction s as [|c r IH]; [reflexivity|].
  simpl List.filter. destruct (isAlnum c) eqn:Hc.
  - destruct (split_cons_alnum c r Hc) as (h & t & E & ->).
    rewrite E in IH. simpl in *. rewrite IH. reflexivity.
  - destruct (split_cons_sep c r Hc) as (t & -> & Ht).
    simpl. rewrite <- IH, <- (concat_filter_truthy t), Ht.
    unfold parts. apply concat_filter_truthy.
Qed.

Lemma map_upper_capitalize p :
  List.map toUpperCase1 (capitalize p) = List.map toUpperCase1 p.
Proof.
  destruct p as [|c p]; [reflexivity|]. simpl.
  rewrite toUpperCase1_idem. reflexivity.
Qed.

Lemma toComponentName_alnum fileName : Forall alnum (toComponentName fileName).
Proof.
  unfold toComponentName.
  destruct (startsWithLetter (safeName fileName));
    apply Forall_app; split;
    auto using safeName_alnum, Icon_alnum.
Qed.

Lemma parts_cons_case c v :
  List.concat (List.map capitalize (parts (c :: v))) =
  List.concat (List.map capitalize (parts (toUpperCase1 c :: v))).
Proof.
  destruct (isLower c) eqn:Hl;
    [|rewrite toUpperCase1_not_lower by exact Hl; reflexivity].
  assert (Hc : alnum c) by (apply isLower_isAlnum, Hl).
  assert (HC : alnum (toUpperCase1 c)) by (apply toUpperCase1_alnum, Hc).
  destruct (split_cons_alnum c v Hc) as (h & t & E & E1).
  destruct (split_cons_alnum (toUpperCase1 c) v HC) as (h' & t' & E' & E2).
  rewrite E in E'. injection E' as <- <-.
  unfold parts. rewrite E1, E2. simpl.
  rewrite toUpperCase1_idem. reflexivity.
Qed.

Lemma toLowerCase1_inv c x :
  toLowerCase1 c = x -> c = x \/ (isUpper c = true /\ c + 32 = x).
Proof.
  unfold toLowerCase1. destruct (isUpper c); auto.
Qed.

Lemma isUpper_range c : isUpper c = true -> 65 <= c /\ c <= 90.
Proof.
  unfold isUpper. intros H. apply andb_true_iff in H as [H1 H2].
  apply N.leb_le in H1, H2. auto.
Qed.

(** The test of the extension pattern on the last four code units is
    the test for a capitalisation of [.svg]. *)
Lemma svgTailMatches_capitalisation dot s v g :
  svgTailMatches g v s dot = true <-> isSvgCapitalisation [dot; s; v; g].
Proof.
  unfold isSvgCapitalisation. split.
  - unfold svgTailMatches, matches_ci. intros H.
    repeat (apply andb_true_iff in H as [H ?]).
    repeat match goal with
           | H : _ || _ = true |- _ => apply orb_true_iff in H as [H | H]
           | H : _ && _ = true |- _ => apply andb_true_iff in H as [_ H]
           | H : (_ =? _) = true |- _ => apply N.eqb_eq in H; subst
           end; try discriminate; reflexivity.
  - intros H. simpl in H. injection H as Hd Hs Hv Hg.
    apply toLowerCase1_inv in Hd as [-> | [Hu Hd]];
      [|apply isUpper_range in Hu; lia].
    apply toLowerCase1_inv in Hs as [-> | [Hu Hs]];
      [|assert (s = 83) as -> by lia];
    (apply toLowerCase1_inv in Hv as [-> | [Hu' Hv]];
      [|assert (v = 86) as -> by lia]);
    (apply toLowerCase1_inv in Hg as [-> | [Hu'' Hg]];
      [|assert (g = 71) as -> by lia]);
    reflexivity.
Qed.

Lemma isSvgCapitalisation_length ext :
  isSvgCapitalisation ext -> exists dot s v g, ext = [dot; s; v; g].
Proof.
  unfold isSvgCapitalisation. intros H.
  destruct ext as [|dot [|s [|v [|g [|? ?]]]]]; try discriminate.
  eauto.
Qed.

Lemma spec_hasSvgExt_ci_capitalisation fileName :
  spec_hasSvgExt_ci fileName = true <->
  exists stem ext, fileName = stem ++ ext /\ isSvgCapitalisation ext.
Proof.
  unfold spec_hasSvgExt_ci. split.
  - destruct (rev fileName) as [|g [|v [|s [|dot rest]]]] eqn:E;
      try discriminate.
    intros H. exists (rev rest), [dot; s; v; g]. split.
    + rewrite <- (rev_involutive fileName), E. simpl.
      rewrite <- !app_assoc. reflexivity.
    + apply svgTailMatches_capitalisation, H.
  - intros (stem & ext & -> & Hext).
    destruct (isSvgCapitalisation_length ext Hext) as (dot & s & v & g & ->).
    rewrite rev_app_distr. simpl.
    apply svgTailMatches_capitalisation, Hext.
Qed.

Lemma stripSvgExt_capitalisation stem ext :
  isSvgCapitalisation ext -> stripSvgExt (stem ++ ext) = stem.
Proof.
  intros Hext.
  destruct (isSvgCapitalisation_length ext Hext) as (dot & s & v & g & ->).
  apply svgTailMatches_capitalisation in Hext.
  unfold stripSvgExt. rewrite rev_app_distr. simpl. rewrite Hext.
  apply rev_involutive.
Qed.

(** X1: the extension is removed in every capitalisation, and once: a
    file name that ends with [.svg] written in any mix of upper and lower
    case loses exactly that ending and derives the identifier of the
    lower-case name; the eight capitalisations are all covered. *)
Theorem stripSvgExt_any_case :
  (forall stem ext,
     isSvgCapitalisation ext ->
     stripSvgExt (stem ++ ext) = stem /\
     toComponentName (stem ++ ext) = toComponentName (stem ++ dotSvg)) /\
  Forall isSvgCapitalisation
    [js ".svg"; js ".svG"; js ".sVg"; js ".sVG";
     js ".Svg"; js ".SvG"; js ".SVg"; js ".SVG"].
Proof.
  split; [|repeat constructor].
  intros stem ext Hext.
  pose proof (stripSvgExt_capitalisation stem ext Hext) as Hs.
  split; [exact Hs|].
  unfold toComponentName, safeName, rawName.
  rewrite Hs, stripSvgExt_dotSvg. reflexivity.
Qed.

Lemma stripSvgExt_any_case_witness :
  stripSvgExt (js "star.svg" ++ js ".SvG") = js "star.svg" /\
  toComponentName (js "star.svg" ++ js ".SvG") =
    toComponentName (js "star.svg" ++ dotSvg).
Proof.
  apply (proj1 stripSvgExt_any_case (js "star.svg") (js ".SvG")).
  reflexivity.
Defined.

(** X2: a file name is left as it is exactly when it does not end with a
    capitalisation of [.svg]; a name that does is four code units
    shorter afterwards. *)
Theorem stripSvgExt_unchanged_iff (fileName : jsstring) :
  (stripSvgExt fileName = fileName <->
   ~ exists stem ext, fileName = stem ++ ext /\ isSvgCapitalisation ext) /\
  (forall stem ext,
     fileName = stem ++ ext -> isSvgCapitalisation ext ->
     stripSvgExt fileName = stem /\
     length fileName = (length (stripSvgExt fileName) + 4)%nat).
Proof.
  split.
  - rewrite <- spec_hasSvgExt_ci_capitalisation.
    unfold stripSvgExt, spec_hasSvgExt_ci.
    destruct (rev fileName) as [|g [|v [|s [|dot rest]]]] eqn:E;
      try (split; [discriminate | reflexivity]).
    assert (Hf : fileName = rev rest ++ [dot; s; v; g]).
    { rewrite <- (rev_involutive fileName), E. simpl.
      rewrite <- !app_assoc. reflexivity. }
    destruct (svgTailMatches g v s dot).
    + split; [|intros H; exfalso; apply H; reflexivity].
      intros H. exfalso.
      apply (f_equal (@length N)) in H. rewrite Hf in H.
      rewrite length_app in H. simpl in H. lia.
    + split; [discriminate | reflexivity].
  - intros stem ext -> Hext.
    rewrite (stripSvgExt_capitalisation stem ext Hext). split; [reflexivity|].
    destruct (isSvgCapitalisation_length ext Hext) as (dot & s & v & g & ->).
    rewrite length_app. reflexivity.
Qed.

Lemma stripSvgExt_unchanged_iff_witness :
  stripSvgExt (js "a.SVG") = js "a" /\
  length (js "a.SVG") = (length (stripSvgExt (js "a.SVG")) + 4)%nat.
Proof.
  apply (proj2 (stripSvgExt_unchanged_iff (js "a.SVG")) (js "a") (js ".SVG")).
  - reflexivity.
  - reflexivity.
Defined.

(** X3: no letter or digit of the base is lost, added or moved: up to the
    case of letters, the raw name is the base with everything but ASCII
    letters and digits removed. *)
Theorem rawName_keeps_alnum (fileName : jsstring) :
  List.map toUpperCase1 (rawName fileName) =
    List.map toUpperCase1 (List.filter isAlnum (stripSvgExt fileName)) /\
  length (rawName fileName) =
    length (List.filter isAlnum (stripSvgExt fileName)).
Proof.
  assert (H : List.map toUpperCase1 (rawName fileName) =
              List.map toUpperCase1 (List.filter isAlnum (stripSvgExt fileName))).
  { unfold rawName, parts.
    rewrite <- concat_split, <- (concat_filter_truthy (split _)).
    induction (List.filter truthy (split (stripSvgExt fileName)))
      as [|p ps IH]; [reflexivity|].
    simpl. rewrite !map_app, IH, map_upper_capitalize. reflexivity. }
  split; [exact H|].
  apply (f_equal (@length N)) in H. rewrite !length_map in H. exact H.
Qed.

(** X4: the case of the first letter of a segment does not matter: at the
    start of the name and after a run of separators, a letter and its
    upper-case form derive the same identifier. *)
Theorem toComponentName_initial_case :
  (forall c v,
     toComponentName (c :: v ++ dotSvg) =
     toComponentName (toUpperCase1 c :: v ++ dotSvg)) /\
  (forall u seps c v,
     seps <> [] -> Forall (fun d => isAlnum d = false) seps ->
     toComponentName (u ++ seps ++ c :: v ++ dotSvg) =
     toComponentName (u ++ seps ++ toUpperCase1 c :: v ++ dotSvg)).
Proof.
  split.
  - intros c v. unfold toComponentName, safeName, rawName.
    rewrite !app_comm_cons, !stripSvgExt_dotSvg, parts_cons_case.
    reflexivity.
  - intros u seps c v Hne Hs. unfold toComponentName, safeName, rawName.
    replace (u ++ seps ++ c :: v ++ dotSvg)
      with ((u ++ seps ++ c :: v) ++ dotSvg)
      by (rewrite <- !app_assoc; reflexivity).
    replace (u ++ seps ++ toUpperCase1 c :: v ++ dotSvg)
      with ((u ++ seps ++ toUpperCase1 c :: v) ++ dotSvg)
      by (rewrite <- !app_assoc; reflexivity).
    rewrite !stripSvgExt_dotSvg.
    rewrite !(parts_app_sep u seps _ Hne Hs).
    rewrite !map_app, !concat_app, parts_cons_case. reflexivity.
Qed.

Lemma toComponentName_initial_case_witness :
  toComponentName (js "arrow" ++ js "-" ++ 117 :: js "p" ++ dotSvg) =
  toComponentName (js "arrow" ++ js "-" ++ toUpperCase1 117 :: js "p" ++ dotSvg).
Proof.
  apply (proj2 toComponentName_initial_case (js "arrow") (js "-") 117 (js "p")).
  - discriminate.
  - repeat constructor.
Defined.

(** X5: the name of a component file has only ASCII letters, digits and the
    dot of its extension: no path separator, so the file lands in the
    destination directory itself; and it ends with [.tsx]. *)
Theorem componentFile_plain (svg : Dirent) :
  Forall (fun c => isAlnum c = true \/ c = 46) (componentFile svg) /\
  ~ In 47 (componentFile svg) /\ ~ In 92 (componentFile svg) /\
  endsWith (componentFile svg) dotTsx = true.
Proof.
  assert (H : Forall (fun c => isAlnum c = true \/ c = 46) (componentFile svg)).
  { unfold componentFile. apply Forall_app. split.
    - eapply Forall_impl; [apply toComponentName_alnum|].
      intros c Hc. left. exact Hc.
    - change dotTsx with [46; 116; 115; 120].
      repeat (constructor;
              [first [left; reflexivity | right; reflexivity]|]).
      constructor. }
  rewrite Forall_forall in H.
  repeat split.
  - apply Forall_forall. exact H.
  - intros Hin. apply list_elem_of_In, H in Hin. destruct Hin; discriminate.
  - intros Hin. apply list_elem_of_In, H in Hin. destruct Hin; discriminate.
  - apply endsWith_true. eexists. reflexivity.
Qed.

(** ** More on the enumerators *)

(** X6: the browser's enumerator loses and repeats nothing: whatever the
    comparator, its result is a rearrangement of the names of the
    entries that the filter keeps, so it has as many names as there are
    such entries. *)
Theorem loadIconNames_permutation
    (localeCompare : jsstring -> jsstring -> Z) (entries : list Dirent) :
  loadIconNames localeCompare entries ≡ₚ List.map name (svgFiles entries) /\
  length (loadIconNames localeCompare entries) = length (svgFiles entries).
Proof.
  assert (H : loadIconNames localeCompare entries
              ≡ₚ List.map name (svgFiles entries)).
  { unfold loadIconNames. apply sortWith_perm. }
  split; [exact H|].
  rewrite H. apply length_map.
Qed.

Section Sorted.

Variable cmp : jsstring -> jsstring -> Z.
Hypothesis cmp_total : forall a b, (cmp a b <= 0)%Z \/ (cmp b a <= 0)%Z.
Hypothesis cmp_trans :
  forall a b c, (cmp a b <= 0)%Z -> (cmp b c <= 0)%Z -> (cmp a c <= 0)%Z.

Lemma sortInsert_sorted a l :
  StronglySorted (fun x y => (cmp x y <= 0)%Z) l ->
  StronglySorted (fun x y => (cmp x y <= 0)%Z) (sortInsert cmp a l).
Proof.
  induction 1 as [|b l Hl IH Hb]; simpl.
  - repeat constructor.
  - destruct (cmp a b <=? 0)%Z eqn:E.
    + apply Z.leb_le in E. constructor.
      * constructor; assumption.
      * constructor; [exact E|].
        eapply Forall_impl; [exact Hb|]. intros c Hc. eauto.
    + apply Z.leb_gt in E. constructor; [exact IH|].
      apply Forall_forall. intros c Hc.
      apply list_elem_of_In, sortInsert_In in Hc as [-> | Hc].
      * destruct (cmp_total b a); [assumption | lia].
      * rewrite Forall_forall in Hb. apply Hb, list_elem_of_In, Hc.
Qed.

(** X7: when the comparator is a total preorder, the names come out in
    ascending order: every name compares at most equal to every later
    one. *)
Theorem loadIconNames_sorted (entries : list Dirent) :
  StronglySorted (fun x y => (cmp x y <= 0)%Z) (loadIconNames cmp entries).
Proof.
  unfold loadIconNames, sortWith.
  induction (List.map name (List.filter isSvgFile entries)) as [|a l IH];
    simpl; [constructor | apply sortInsert_sorted, IH].
Qed.

End Sorted.

Lemma loadIconNames_sorted_witness :
  StronglySorted
    (fun x y => (Z.of_nat (length x) - Z.of_nat (length y) <= 0)%Z)
    (loadIconNames (fun x y => (Z.of_nat (length x) - Z.of_nat (length y))%Z)
       listing4).
Proof.
  apply (loadIconNames_sorted
           (fun x y => (Z.of_nat (length x) - Z.of_nat (length y))%Z)).
  - intros a b. lia.
  - intros a b c. lia.
Defined.

(** ** More on the embedded data *)

Lemma hexDigit_ge d : 48 <= hexDigit d.
Proof. unfold hexDigit. destruct (d <? 10); lia. Qed.

Lemma hexDigit_not_lt d : d < 16 -> hexDigit d <> 60.
Proof.
  unfold hexDigit. intros Hd. destruct (d <? 10) eqn:E.
  - apply N.ltb_lt in E. lia.
  - lia.
Qed.

Lemma quoteUnit_ge c : Forall (fun x => 32 <= x) (quoteUnit c).
Proof.
  unfold quoteUnit.
  repeat (match goal with
          | |- context [if ?b then _ else _] => destruct b eqn:?
          end; [repeat constructor; lia|]).
  destruct (_ || _) eqn:E.
  - unfold unicodeEscape.
    repeat (constructor; [first [lia | apply (N.le_trans _ 48); [lia | apply hexDigit_ge]]|]).
    constructor.
  - apply orb_false_iff in E as [E _]. apply orb_false_iff in E as [E _].
    apply N.ltb_ge in E. repeat constructor. exact E.
Qed.

Lemma quoteBody_ge s : Forall (fun x => 32 <= x) (quoteBody s).
Proof.
  induction s as [s r] using (induction_ltof1 _ (@length N)).
  unfold ltof in r.
  destruct s as [|c [|d r']]; simpl.
  - constructor.
  - apply quoteUnit_ge.
  - destruct (isLeadSurrogate c && isTrailSurrogate d) eqn:E.
    + apply andb_true_iff in E as [E1 E2].
      unfold isLeadSurrogate, isTrailSurrogate in *.
      apply andb_true_iff in E1 as [E1 _]. apply andb_true_iff in E2 as [E2 _].
      apply N.leb_le in E1, E2.
      constructor; [lia|]. constructor; [lia|].
      apply r. simpl. lia.
    + apply Forall_app. split; [apply quoteUnit_ge|].
      apply (r (d :: r')). simpl. lia.
Qed.

Lemma joinComma_Forall (P : N -> Prop) items :
  P 44 -> Forall (Forall P) items -> Forall P (joinComma items).
Proof.
  intros Hc. induction 1 as [|x rest Hx Hrest IH]; [constructor|].
  destruct rest as [|y rest]; [exact Hx|].
  change (joinComma (x :: y :: rest)) with (x ++ [44] ++ joinComma (y :: rest)).
  apply Forall_app. split; [exact Hx|].
  apply Forall_app. split; [repeat constructor; exact Hc | exact IH].
Qed.

Lemma JSON_stringify_Forall (P : N -> Prop) iconNames :
  P 91 -> P 93 -> P 44 -> P 34 ->
  Forall (fun n => Forall P (quoteBody n)) iconNames ->
  Forall P (JSON_stringify iconNames).
Proof.
  intros H91 H93 H44 H34 Hn. unfold JSON_stringify.
  apply Forall_app. split; [repeat constructor; exact H91|].
  apply Forall_app. split; [|repeat constructor; exact H93].
  apply joinComma_Forall; [exact H44|].
  induction Hn as [|n ns Hq _ IH]; simpl; constructor; [|exact IH].
  unfold quoteJSONString. apply Forall_app. split; [repeat constructor; exact H34|].
  apply Forall_app. split; [exact Hq | repeat constructor; exact H34].
Qed.

Lemma replaceLt_Forall (P : N -> Prop) s :
  Forall P lt_escape -> Forall P s -> Forall P (replaceLt s).
Proof.
  intros He. unfold replaceLt. induction 1 as [|c s Hc _ IH]; simpl; [constructor|].
  apply Forall_app. split; [|exact IH].
  destruct (c =? 60); [exact He | repeat constructor; exact Hc].
Qed.

(** X8: the data literal has no control character, whatever the names hold:
    no code unit below 32, so no line break, tab or NUL reaches the
    page's script through an icon name. *)
Theorem safeJson_no_control (iconNames : list jsstring) :
  Forall (fun c => 32 <= c) (JSON_stringify iconNames) /\
  Forall (fun c => 32 <= c) (safeJson iconNames).
Proof.
  assert (H : Forall (fun c => 32 <= c) (JSON_stringify iconNames)).
  { apply JSON_stringify_Forall; try lia.
    apply Forall_forall. intros n _. apply quoteBody_ge. }
  split; [exact H|].
  unfold safeJson. apply replaceLt_Forall; [|exact H].
  unfold lt_escape. repeat constructor; lia.
Qed.

Lemma quoteUnit_lt c : In 60 (quoteUnit c) -> c = 60.
Proof.
  unfold quoteUnit. intros Hin.
  repeat match type of Hin with
         | context [if ?b then _ else _] =>
             destruct b eqn:?;
             [solve [simpl in Hin;
                     repeat (destruct Hin as [Hin | Hin]; [discriminate|]);
                     destruct Hin]|]
         end.
  match type of Hin with
  | context [if ?b then _ else _] => destruct b eqn:E
  end.
  - unfold unicodeEscape in Hin. simpl in Hin.
    repeat (destruct Hin as [Hin | Hin];
            [first [discriminate
                   | exfalso; revert Hin; apply hexDigit_not_lt;
                     apply N.mod_lt; discriminate]|]).
    destruct Hin.
  - destruct Hin as [Hin | []]. exact Hin.
Qed.

Lemma quoteBody_lt s : In 60 (quoteBody s) -> In 60 s.
Proof.
  induction s as [s r] using (induction_ltof1 _ (@length N)).
  unfold ltof in r.
  destruct s as [|c [|d r']]; simpl.
  - auto.
  - intros H. left. apply quoteUnit_lt, H.
  - destruct (isLeadSurrogate c && isTrailSurrogate d) eqn:E.
    + simpl. intros [H | [H | H]]; auto.
      right. right. apply r; [simpl; lia | exact H].
    + intros H. apply in_app_or in H as [H | H].
      * left. apply quoteUnit_lt, H.
      * right. apply (r (d :: r')); [simpl; lia | exact H].
Qed.

Lemma replaceLt_id s : ~ In 60 s -> replaceLt s = s.
Proof.
  unfold replaceLt. induction s as [|c s IH]; [reflexivity|].
  intros Hn. simpl. destruct (c =? 60) eqn:E.
  - apply N.eqb_eq in E. exfalso. apply Hn. left. exact E.
  - simpl. rewrite IH; [reflexivity|]. intros H. apply Hn. right. exact H.
Qed.

Lemma joinComma_lt items :
  In 60 (joinComma items) -> exists x, In x items /\ In 60 x.
Proof.
  induction items as [|x rest IH]; [intros []|].
  destruct rest as [|y rest].
  - intros H. exists x. split; [left; reflexivity | exact H].
  - change (joinComma (x :: y :: rest)) with (x ++ [44] ++ joinComma (y :: rest)).
    intros H. apply in_app_or in H as [H | [H | H]].
    + exists x. split; [left; reflexivity | exact H].
    + discriminate.
    + destruct (IH H) as (z & Hz & Hin). exists z. split; [right; exact Hz | exact Hin].
Qed.

(** X9: the escape only ever fires for a [<] of an icon name: the JSON text
    has a [<] only where a name has one, and when no name has one the
    data literal is the JSON text itself. *)
Theorem safeJson_plain (iconNames : list jsstring) :
  (In 60 (JSON_stringify iconNames) ->
   exists n, In n iconNames /\ In 60 n) /\
  ((forall n, In n iconNames -> ~ In 60 n) ->
   safeJson iconNames = JSON_stringify iconNames).
Proof.
  assert (H : In 60 (JSON_stringify iconNames) ->
              exists n, In n iconNames /\ In 60 n).
  { unfold JSON_stringify. intros Hin. simpl in Hin.
    destruct Hin as [Hin | Hin]; [discriminate|].
    apply in_app_or in Hin as [Hin | [Hin | []]]; [|discriminate].
    apply joinComma_lt in Hin as (x & Hx & Hin).
    apply in_map_iff in Hx as (n & <- & Hn).
    exists n. split; [exact Hn|].
    unfold quoteJSONString in Hin. simpl in Hin.
    destruct Hin as [Hin | Hin]; [discriminate|].
    apply in_app_or in Hin as [Hin | [Hin | []]]; [|discriminate].
    apply quoteBody_lt, Hin. }
  split; [exact H|].
  intros Hno. unfold safeJson. apply replaceLt_id.
  intros Hin. destruct (H Hin) as (n & H1 & H2). exact (Hno n H1 H2).
Qed.

Lemma safeJson_plain_witness :
  safeJson [js "star.svg"; js "a>b.svg"] =
  JSON_stringify [js "star.svg"; js "a>b.svg"].
Proof.
  apply (proj2 (safeJson_plain [js "star.svg"; js "a>b.svg"])).
  intros n [<- | [<- | []]]; simpl; intuition discriminate.
Defined.

Lemma endsWith_app s suffix : endsWith (s ++ suffix) suffix = true.
Proof. apply endsWith_true. exists s. reflexivity. Qed.

(** X10: the URL prefix always ends with a slash, is left alone when it
    already does, and holds no platform separator other than the slash. *)
Theorem iconUrlPrefix_slash (sep : N) (relativeIconDir : jsstring) :
  endsWith (iconUrlPrefix relativeIconDir) [47] = true /\
  iconUrlPrefix (iconUrlPrefix relativeIconDir) = iconUrlPrefix relativeIconDir /\
  (sep <> 47 -> ~ In sep (iconUrlPrefix (toSlashes sep relativeIconDir))).
Proof.
  assert (H : endsWith (iconUrlPrefix relativeIconDir) [47] = true).
  { unfold iconUrlPrefix.
    destruct (endsWith relativeIconDir [47]) eqn:E;
      [exact E | apply endsWith_app]. }
  split; [exact H|]. split.
  - unfold iconUrlPrefix at 1. rewrite H. reflexivity.
  - intros Hsep Hin.
    assert (Hno : ~ In sep (toSlashes sep relativeIconDir)).
    { unfold toSlashes. rewrite in_map_iff. intros (c & Hc & _).
      destruct (c =? sep) eqn:E; [congruence|].
      apply N.eqb_neq in E. congruence. }
    unfold iconUrlPrefix in Hin.
    destruct (endsWith (toSlashes sep relativeIconDir) [47]);
      [exact (Hno Hin)|].
    apply in_app_or in Hin as [Hin | [Hin | []]]; [exact (Hno Hin) | congruence].
Qed.

Lemma iconUrlPrefix_slash_witness :
  ~ In 92 (iconUrlPrefix (toSlashes 92 (js "..\src\sf-symbols"))).
Proof.
  apply (proj2 (proj2 (iconUrlPrefix_slash 92 (js "..\src\sf-symbols")))).
  discriminate.
Defined.

(** ** More on the transform pipeline *)

Section PipelineProperties.

Variable io : IOFaults.
Variable transform : jsstring -> jsstring -> Outcome jsstring.
Variable sfSymbolsSvg : PathState -> Outcome unit * PathState.

Lemma detectSvgDir_directory w :
  fst (detectSvgDir w) = Ok directory ->
  exists entries, svgPath w = PDirectory entries.
Proof.
  rewrite detectSvgDir_eq. destruct (svgPath w) as [|entries| | |error];
    cbn [fst]; try discriminate; eauto.
  destruct (bool_decide _); discriminate.
Qed.

Lemma buildReactComponents_needs_directory_aux w :
  (fst (detectSvgDir w) = Ok missing \/ fst (detectSvgDir w) = Ok file ->
   buildReactComponents io transform w =
     (Throw (JsError
        "SVG icon directory not found at src/sf-symbols. Generation may have failed."),
      w)) /\
  (forall error,
     fst (detectSvgDir w) = Throw error ->
     buildReactComponents io transform w = (Throw error, w)).
Proof.
  rewrite buildReactComponents_guard. split.
  - intros [-> | ->]; reflexivity.
  - intros error ->. reflexivity.
Qed.

(** X11: without a directory at the source path the pipeline stops before it
    reads or writes anything: for an absent path, a regular file or a
    special file it throws its own error, and a probe error is thrown as
    it is. *)
Theorem buildReactComponents_needs_directory (w : World) :
  (fst (detectSvgDir w) = Ok missing \/ fst (detectSvgDir w) = Ok file ->
   buildReactComponents io transform w =
     (Throw (JsError
        "SVG icon directory not found at src/sf-symbols. Generation may have failed."),
      w)) /\
  (forall error,
     fst (detectSvgDir w) = Throw error ->
     buildReactComponents io transform w = (Throw error, w)).
Proof. exact (buildReactComponents_needs_directory_aux w). Qed.

(** X12: the pipeline never changes what is at the source path. *)
Theorem buildReactComponents_source_untouched (w : World) :
  svgPath (snd (buildReactComponents io transform w)) = svgPath w.
Proof.
  destruct (fst (detectSvgDir w)) as [[| |]|error] eqn:Hdet.
  - rewrite (proj1 (buildReactComponents_needs_directory_aux w)); auto.
  - destruct (detectSvgDir_directory w Hdet) as (entries & Hp).
    destruct (svgFiles entries) as [|svg0 svgs] eqn:Hsvgs.
    + rewrite (buildReactComponents_empty io transform w entries Hp Hsvgs).
      reflexivity.
    + assert (Hne : svgFiles entries <> []) by congruence.
      destruct (removable_dec (componentsPath w)) as [Hrm | (e & Hd & He)].
      * rewrite (buildReactComponents_rm_ok io transform w entries Hp Hne Hrm).
        destruct (mkdirFault io); [reflexivity|].
        destruct (forOf_transformOne_run io transform (svgFiles entries)
                    (loopStart (length (svgFiles entries)) w) ∅ eq_refl)
          as (r & w' & files' & done & rest & att & E & _ & Hs & _).
        rewrite E. destruct r; cbn [snd emit svgPath]; rewrite Hs; reflexivity.
      * rewrite (buildReactComponents_rm_fails io transform w entries e Hp Hne Hd He).
        reflexivity.
  - rewrite (proj1 (buildReactComponents_needs_directory_aux w)); auto.
  - rewrite (proj2 (buildReactComponents_needs_directory_aux w) error Hdet).
    reflexivity.
Qed.

(** X13: what was in a removable destination before a run with at least one
    icon has no influence on the run: outcome, destination and events
    are the same for every earlier content that the removal accepts. *)
Theorem buildReactComponents_forgets_destination
    (w : World) (entries : list Dirent) (d : DestState) :
  svgPath w = PDirectory entries -> svgFiles entries <> [] ->
  removable (componentsPath w) -> removable d ->
  buildReactComponents io transform (setComponentsPath d w) =
  buildReactComponents io transform w.
Proof.
  intros Hp Hne Hrm Hd.
  rewrite (buildReactComponents_rm_ok io transform w entries Hp Hne Hrm).
  rewrite (buildReactComponents_rm_ok io transform (setComponentsPath d w)
             entries Hp Hne Hd).
  reflexivity.
Qed.

(** X14: an icon's file holds the transformer's output for that icon, and
    when several icons derive the same file name the one that comes last
    in the listing wins: after a run that returns, the file of an icon
    that no later icon collides with holds that icon's component. *)
Theorem buildReactComponents_last_write_wins
    (w w' : World) (entries pre post : list Dirent) (svg : Dirent) :
  svgPath w = PDirectory entries ->
  svgFiles entries = pre ++ svg :: post ->
  (forall later, In later post -> componentFile later <> componentFile svg) ->
  buildReactComponents io transform w = (Ok tt, w') ->
  exists files source,
    componentsPath w' = DDir files /\
    sourceFor io transform w svg = Ok source /\
    files !! componentFile svg = Some source.
Proof.
  intros Hp Hsplit Hpost Hrun.
  assert (Hne : svgFiles entries <> [])
    by (rewrite Hsplit; destruct pre; discriminate).
  destruct (removable_dec (componentsPath w)) as [Hrm | (e & Hd & He)];
    [|rewrite (buildReactComponents_rm_fails io transform w entries e
                 Hp Hne Hd He) in Hrun; discriminate].
  rewrite (buildReactComponents_rm_ok io transform w entries Hp Hne Hrm) in Hrun.
  destruct (mkdirFault io); [discriminate|].
  set (w3 := loopStart (length (svgFiles entries)) w) in *.
  destruct (forOf_transformOne_run io transform (svgFiles entries) w3 ∅ eq_refl)
    as (r & w1 & files & done & rest & att & E & Hd & Hs & Hc & Ht & Hall
        & Hr & Hkeep & Hlast & _).
  rewrite E in Hrun. destruct r as [[]|error]; [|discriminate].
  injection Hrun as <-. destruct Hr as [-> ->]. rewrite app_nil_r in Hd.
  destruct (Hall svg) as (source & Hsource & _).
  { rewrite <- Hd, Hsplit. apply in_or_app. right. left. reflexivity. }
  exists files, source. split; [exact Hc|].
  rewrite <- (sourceFor_path io transform w3 w svg eq_refl).
  split; [exact Hsource|].
  apply (Hlast eq_refl pre svg post source Hsplit Hpost Hsource).
Qed.

(** X15: a run over a directory with at least one icon returns exactly when
    the destination can be removed and created and every icon can be
    read, transformed and written; it then makes its calls in this
    order: removal, creation, the count line, one write per icon in
    listing order to the file named after the icon, the closing line. *)
Theorem buildReactComponents_writes_in_order
    (w : World) (entries : list Dirent) :
  svgPath w = PDirectory entries -> svgFiles entries <> [] ->
  (fst (buildReactComponents io transform w) = Ok tt <->
   removable (componentsPath w) /\ mkdirFault io = None /\
   forall svg, In svg (svgFiles entries) ->
     exists source,
       sourceFor io transform w svg = Ok source /\
       writeFault io (componentFile svg) source = None) /\
  (fst (buildReactComponents io transform w) = Ok tt ->
   trace (snd (buildReactComponents io transform w)) =
     trace w ++
     [ERm componentsDirRel; EMkdir componentsDirRel;
      ELog (LogTransforming (length (svgFiles entries)))] ++
     List.map writeEvent (svgFiles entries) ++
     [ELog (LogGenerated (length (svgFiles entries)) componentsDirRel)]).
Proof.
  intros Hp Hne.
  destruct (removable_dec (componentsPath w)) as [Hrm | (e & Hd & He)].
  2:{ rewrite (buildReactComponents_rm_fails io transform w entries e
                 Hp Hne Hd He).
      split; [|discriminate]. split; [discriminate|].
      intros [Hrm _]. rewrite (Hrm e Hd) in He. discriminate. }
  rewrite (buildReactComponents_rm_ok io transform w entries Hp Hne Hrm).
  destruct (mkdirFault io) as [e|] eqn:Hmk.
  { split; [|discriminate]. split; [discriminate|].
    intros (_ & H & _). discriminate. }
  set (w3 := loopStart (length (svgFiles entries)) w).
  destruct (forOf_transformOne_run io transform (svgFiles entries) w3 ∅ eq_refl)
    as (r & w1 & files & done & rest & att & E & Hd & Hs & Hc & Ht & Hall
        & Hr & _).
  rewrite E. destruct r as [[]|error]; cbn [fst snd].
  - destruct Hr as [-> ->]. rewrite app_nil_r in Hd. split.
    + split; [|reflexivity]. intros _. split; [exact Hrm|].
      split; [reflexivity|]. intros svg Hin.
      rewrite Hd in Hin. destruct (Hall svg Hin) as (source & H1 & H2).
      exists source. rewrite <- (sourceFor_path io transform w3 w svg eq_refl).
      auto.
    + intros _. cbn [emit trace]. rewrite Ht, <- Hd. subst w3.
      cbn [loopStart emit setComponentsPath trace].
      rewrite <- !app_assoc. reflexivity.
  - split; [|discriminate]. split; [discriminate|].
    intros (_ & _ & Hok). exfalso.
    destruct Hr as (bad & rest' & -> & Hbad).
    destruct (Hok bad) as (source & H1 & H2).
    { rewrite Hd. apply in_or_app. right. left. reflexivity. }
    rewrite <- (sourceFor_path io transform w3 w bad eq_refl) in H1.
    destruct Hbad as [[Hb _] | (source' & remains & Hb & Hw & _)]; congruence.
Qed.


(** One iteration does not look at the history. *)
Lemma transformOne_trace svg w t :
  exists r w' new,
    transformOne io transform svg w = (r, w') /\
    svgPath w' = svgPath w /\
    trace w' = trace w ++ new /\
    transformOne io transform svg (withTrace t w) =
      (r, withTrace (t ++ new) w').
Proof.
  rewrite !transformOne_eq.
  rewrite (sourceFor_path io transform (withTrace t w) w svg eq_refl).
  destruct (sourceFor io transform w svg) as [source|error].
  - unfold fs_writeFile_component. cbn [withTrace componentsPath].
    destruct (componentsPath w) as [|files| |e];
      try (eexists _, _, [_]; repeat split; reflexivity).
    destruct (writeFault io (componentFile svg) source) as [[e [remains|]]|];
      eexists _, _, [_]; repeat split; reflexivity.
  - exists (Throw error), w, []. rewrite !app_nil_r. auto.
Qed.

Lemma forOf_transformOne_trace svgs : forall w t,
  exists r w' new,
    forOf svgs (transformOne io transform) w = (r, w') /\
    svgPath w' = svgPath w /\
    trace w' = trace w ++ new /\
    forOf svgs (transformOne io transform) (withTrace t w) =
      (r, withTrace (t ++ new) w').
Proof.
  induction svgs as [|s0 svgs IH]; intros w t.
  - exists (Ok tt), w, []. simpl. rewrite !app_nil_r. auto.
  - simpl forOf. unfold bind.
    destruct (transformOne_trace s0 w t) as (r0 & w1 & new0 & E0 & Hs0 & Ht0 & Et0).
    rewrite E0, Et0. destruct r0 as [[]|error].
    + destruct (IH w1 (t ++ new0)) as (r & w' & new & E & Hs & Ht & Et).
      exists r, w', (new0 ++ new).
      rewrite E, Et. repeat split.
      * congruence.
      * rewrite Ht, Ht0, <- app_assoc. reflexivity.
      * rewrite <- app_assoc. reflexivity.
    + exists (Throw error), w1, new0. auto.
Qed.

Lemma buildReactComponents_replay w entries d t :
  svgPath w = PDirectory entries -> svgFiles entries <> [] ->
  removable (componentsPath w) -> removable d ->
  exists r w' new,
    buildReactComponents io transform w = (r, w') /\
    svgPath w' = svgPath w /\
    trace w' = trace w ++ new /\
    removable (componentsPath w') /\
    buildReactComponents io transform (mkWorld (svgPath w) d t) =
      (r, withTrace (t ++ new) w').
Proof.
  intros Hp Hne Hrm Hd.
  rewrite (buildReactComponents_rm_ok io transform w entries Hp Hne Hrm).
  rewrite (buildReactComponents_rm_ok io transform (mkWorld (svgPath w) d t)
             entries Hp Hne Hd).
  destruct (mkdirFault io) as [e|].
  { eexists _, _, [_; _]. split; [reflexivity|].
    repeat split.
    - cbn [emit setComponentsPath trace]. rewrite <- app_assoc. reflexivity.
    - intros e' H. discriminate.
    - unfold emit, setComponentsPath, withTrace.
      cbn [svgPath componentsPath trace]. rewrite <- app_assoc. reflexivity. }
  set (n := length (svgFiles entries)).
  set (start := [ERm componentsDirRel; EMkdir componentsDirRel;
                 ELog (LogTransforming n)]).
  destruct (forOf_transformOne_trace (svgFiles entries) (loopStart n w) (t ++ start))
    as (r & w' & new & E & Hs & Ht & Et).
  change (loopStart n (mkWorld (svgPath w) d t))
    with (mkWorld (svgPath w) (DDir ∅) (((t ++ [ERm componentsDirRel])
            ++ [EMkdir componentsDirRel]) ++ [ELog (LogTransforming n)])).
  replace (((t ++ [ERm componentsDirRel]) ++ [EMkdir componentsDirRel])
             ++ [ELog (LogTransforming n)]) with (t ++ start)
    by (subst start; rewrite <- !app_assoc; reflexivity).
  change (mkWorld (svgPath w) (DDir ∅) (t ++ start))
    with (withTrace (t ++ start) (loopStart n w)).
  rewrite Et.
  assert (Hstart : trace (loopStart n w) = trace w ++ start).
  { subst start. cbn [loopStart emit setComponentsPath trace].
    rewrite <- !app_assoc. reflexivity. }
  assert (Hdir : removable (componentsPath w')).
  { destruct (forOf_transformOne_run io transform (svgFiles entries)
                (loopStart n w) ∅ eq_refl)
      as (r1 & w1 & files & done & rest & att & E1 & _ & _ & Hc & _).
    rewrite E in E1. injection E1 as _ <-. rewrite Hc.
    intros e H. discriminate. }
  rewrite E. destruct r as [[]|error].
  - exists (Ok tt), (emit (ELog (LogGenerated n componentsDirRel)) w'),
      (start ++ new ++ [ELog (LogGenerated n componentsDirRel)]).
    split; [reflexivity|].
    split; [cbn [emit svgPath]; rewrite Hs; reflexivity|].
    split; [cbn [emit trace]; rewrite Ht, Hstart, <- !app_assoc; reflexivity|].
    split; [exact Hdir|].
    unfold emit, withTrace. cbn [svgPath componentsPath trace].
    rewrite <- !app_assoc. reflexivity.
  - exists (Throw error), w', (start ++ new).
    split; [reflexivity|]. split; [rewrite Hs; reflexivity|].
    split; [rewrite Ht, Hstart, <- !app_assoc; reflexivity|].
    split; [exact Hdir|].
    rewrite <- !app_assoc. reflexivity.
Qed.

(** X17: running the pipeline again over an unchanged source gives the same
    outcome and the same destination as the first run. *)
Theorem buildReactComponents_rerun (w : World) (entries : list Dirent) :
  svgPath w = PDirectory entries -> svgFiles entries <> [] ->
  let first := buildReactComponents io transform w in
  let second := buildReactComponents io transform (snd first) in
  fst second = fst first /\
  componentsPath (snd second) = componentsPath (snd first).
Proof.
  intros Hp Hne first second. subst second.
  destruct (removable_dec (componentsPath w)) as [Hrm | (e & Hd & He)].
  - destruct (buildReactComponents_replay w entries
                (componentsPath w) (trace w) Hp Hne Hrm Hrm)
      as (r & w' & new & E & Hs & Ht & Hrm' & _).
    assert (Hp' : svgPath w' = PDirectory entries) by congruence.
    destruct (buildReactComponents_replay w entries
                (componentsPath w') (trace w') Hp Hne Hrm Hrm')
      as (r2 & w2 & new2 & E2 & _ & _ & _ & Et).
    rewrite E in E2. injection E2 as <- <-.
    subst first. rewrite E. cbn [fst snd].
    destruct w' as [p' d' t']. cbn [svgPath componentsPath trace] in *.
    rewrite <- Hs in Et. rewrite Et. split; reflexivity.
  - subst first.
    rewrite (buildReactComponents_rm_fails io transform w entries e Hp Hne Hd He).
    cbn [fst snd].
    rewrite (buildReactComponents_rm_fails io transform
               (emit (ERm componentsDirRel) w) entries e Hp Hne Hd He).
    split; [reflexivity | reflexivity].
Qed.

(** ** More on [ensureSvgIcons] *)

(** X18: making sure the icons are there never touches the destination, and
    the source path changes only when the generator was started: it is
    then what the generator left, whether it exited normally or not. *)
Theorem ensureSvgIcons_frame (w : World) :
  componentsPath (snd (ensureSvgIcons sfSymbolsSvg w)) = componentsPath w /\
  (fst (detectSvgDir w) <> Ok missing ->
   svgPath (snd (ensureSvgIcons sfSymbolsSvg w)) = svgPath w) /\
  (fst (detectSvgDir w) = Ok missing ->
   svgPath (snd (ensureSvgIcons sfSymbolsSvg w)) =
     snd (sfSymbolsSvg (svgPath w)) /\
   fst (ensureSvgIcons sfSymbolsSvg w) = fst (sfSymbolsSvg (svgPath w))).
Proof.
  rewrite ensureSvgIcons_eq.
  destruct (fst (detectSvgDir w)) as [[| |]|error]; cbn [fst snd].
  - unfold execa_generator. cbn [emit svgPath].
    destruct (sfSymbolsSvg (svgPath w)) as [exit p]. cbn [fst snd].
    split; [reflexivity|]. split; [congruence|]. intros _. split; reflexivity.
  - split; [reflexivity|]. split; [reflexivity | discriminate].
  - split; [reflexivity|]. split; [reflexivity | discriminate].
  - split; [reflexivity|]. split; [reflexivity | discriminate].
Qed.

(** X19: failures of the generation step are not swallowed: a generator that
    exits with an error makes the step throw that error after the log
    line and the call, with whatever the generator left at the source
    path; a probe error other than not-found is thrown before anything
    is logged or started. *)
Theorem ensureSvgIcons_failures (w : World) (error : Failure) :
  (forall p,
     fst (detectSvgDir w) = Ok missing ->
     sfSymbolsSvg (svgPath w) = (Throw error, p) ->
     ensureSvgIcons sfSymbolsSvg w =
       (Throw error,
        setSvgPath p (emit generatorCall (emit (ELog LogGenerating) w)))) /\
  (fst (fs_stat_svgDir w) = Throw error ->
   errorCode error <> Some "ENOENT"%string ->
   ensureSvgIcons sfSymbolsSvg w = (Throw error, w)).
Proof.
  split.
  - intros p Hm Hgen. rewrite ensureSvgIcons_eq, Hm.
    unfold execa_generator. cbn [emit svgPath]. rewrite Hgen. reflexivity.
  - intros Hstat Hcode. rewrite ensureSvgIcons_eq, detectSvgDir_eq.
    unfold fs_stat_svgDir in Hstat.
    destruct (svgPath w) as [| | | |e]; cbn [fst] in *; try discriminate.
    + injection Hstat as <-. exfalso. apply Hcode. reflexivity.
    + injection Hstat as ->.
      rewrite bool_decide_eq_false_2 by exact Hcode. reflexivity.
Qed.

End PipelineProperties.

(** ** The formatting step and the whole script *)

Section MainProperties.

Variable io : IOFaults.
Variable transform : jsstring -> jsstring -> Outcome jsstring.
Variable sfSymbolsSvg : PathState -> Outcome unit * PathState.
Variable prettier : DestState -> Outcome unit * DestState.

Lemma formatComponents_eq w :
  formatComponents prettier w =
    match componentsPath w with
    | DAbsent =>
        (Ok tt, emit (ELog (LogSkipPrettierMissing componentsDirRel)) w)
    | DNotDir =>
        (Ok tt, emit (ELog (LogSkipPrettierNotDirectory componentsDirRel)) w)
    | DDir files =>
        (fst (prettier (DDir files)),
         setComponentsPath (snd (prettier (DDir files)))
           (emit prettierCall (emit (ELog LogFormatting) w)))
    | DFault error =>
        if bool_decide (errorCode error = Some "ENOENT"%string)
        then (Ok tt, emit (ELog (LogSkipPrettierMissing componentsDirRel)) w)
        else (Throw error, w)
    end.
Proof.
  unfold formatComponents, bind, tryCatch, fs_stat_componentsDir,
    console_log, ret, throw, execa_prettier.
  destruct (componentsPath w) as [|files| |error] eqn:Hc; cbn; try reflexivity.
  - rewrite Hc. destruct (prettier (DDir files)); reflexivity.
  - destruct (bool_decide (errorCode error = Some "ENOENT"%string)); reflexivity.
Qed.

(** X20: the formatter is started exactly when the destination is a
    directory.  A missing destination, or one that is not a directory,
    is not an error: the step returns, says why on the console, and
    does nothing else.  A probe error other than not-found is thrown
    again and nothing is logged. *)
Theorem formatComponents_started_iff_directory (w : World) :
  (In prettierCall (trace (snd (formatComponents prettier w))) <->
   In prettierCall (trace w) \/
   exists files, componentsPath w = DDir files) /\
  (componentsPath w = DAbsent ->
   formatComponents prettier w =
     (Ok tt, emit (ELog (LogSkipPrettierMissing componentsDirRel)) w)) /\
  (componentsPath w = DNotDir ->
   formatComponents prettier w =
     (Ok tt, emit (ELog (LogSkipPrettierNotDirectory componentsDirRel)) w)) /\
  (forall error,
     componentsPath w = DFault error ->
     errorCode error <> Some "ENOENT"%string ->
     formatComponents prettier w = (Throw error, w)).
Proof.
  rewrite formatComponents_eq.
  destruct (componentsPath w) as [|files| |error]; cbn [snd].
  - repeat split; try discriminate; auto.
    + cbn [emit trace]. intros H. apply in_app_or in H as [H | [H | []]];
        [auto | discriminate].
    + cbn [emit trace]. intros [H | [? H]]; [|discriminate].
      apply in_or_app. auto.
  - repeat split; try discriminate.
    + intros _. right. eauto.
    + intros _. cbn [setComponentsPath emit trace].
      apply in_or_app. right. left. reflexivity.
  - repeat split; try discriminate; auto.
    + cbn [emit trace]. intros H. apply in_app_or in H as [H | [H | []]];
        [auto | discriminate].
    + cbn [emit trace]. intros [H | [? H]]; [|discriminate].
      apply in_or_app. auto.
  - destruct (bool_decide (errorCode error = Some "ENOENT"%string)) eqn:E;
      cbn [snd]; repeat split; try discriminate.
    + cbn [emit trace]. intros H. apply in_app_or in H as [H | [H | []]];
        [auto | discriminate].
    + cbn [emit trace]. intros [H | [? H]]; [|discriminate].
      apply in_or_app. auto.
    + intros e He Hcode. injection He as <-.
      apply bool_decide_eq_true in E. contradiction.
    + auto.
    + intros [H | [? H]]; [exact H | discriminate].
    + intros e He _. injection He as <-. reflexivity.
Qed.

(** X21: with a directory as destination the step prints its line, calls the
    formatter once, and its outcome is the formatter's: what the
    formatter leaves is the destination afterwards, whether it exited
    normally or not; the source path is never touched. *)
Theorem formatComponents_runs_formatter
    (w : World) (files : gmap jsstring jsstring) :
  componentsPath w = DDir files ->
  svgPath (snd (formatComponents prettier w)) = svgPath w /\
  trace (snd (formatComponents prettier w)) =
    trace w ++ [ELog LogFormatting; prettierCall] /\
  fst (formatComponents prettier w) = fst (prettier (DDir files)) /\
  componentsPath (snd (formatComponents prettier w)) =
    snd (prettier (DDir files)).
Proof.
  intros Hc. rewrite formatComponents_eq, Hc. cbn.
  rewrite <- app_assoc. auto.
Qed.

Lemma main_directory w entries :
  svgPath w = PDirectory entries ->
  main io transform sfSymbolsSvg prettier w =
    match buildReactComponents io transform
            (emit (ELog (LogSkipGeneration svgDirRel)) w) with
    | (Ok _, w2) => formatComponents prettier w2
    | (Throw error, w2) => (Throw error, w2)
    end.
Proof.
  intros Hp. unfold main. unfold bind at 1.
  rewrite ensureSvgIcons_eq, detectSvgDir_eq, Hp. cbn [fst].
  unfold bind at 1.
  destruct (buildReactComponents io transform _) as [[[]|error] w2]; reflexivity.
Qed.

(** X22: a regular file at the source path stops the whole script at once:
    nothing is generated, built or formatted, and the world is as it
    was. *)
Theorem main_stops_on_file (w : World) :
  fst (fs_stat_svgDir w) = Ok KFile ->
  main io transform sfSymbolsSvg prettier w =
    (Throw (JsError
       "src/sf-symbols exists but is not a directory. Remove it so icons can be generated."),
     w).
Proof.
  intros Hstat. unfold main, bind.
  rewrite ensureSvgIcons_eq, detectSvgDir_eq.
  unfold fs_stat_svgDir in Hstat.
  destruct (svgPath w); cbn [fst] in *; try discriminate.
  reflexivity.
Qed.

(** X23: a generator that exits normally but leaves no directory behind makes
    the script throw the build step's error right after the call; the
    destination is not touched and the formatter is not started. *)
Theorem main_generation_left_nothing (w : World) (p : PathState) :
  fst (detectSvgDir w) = Ok missing ->
  sfSymbolsSvg (svgPath w) = (Ok tt, p) ->
  p = PAbsent \/ p = PFile \/ (exists k, p = PSpecial k) ->
  main io transform sfSymbolsSvg prettier w =
    (Throw (JsError
       "SVG icon directory not found at src/sf-symbols. Generation may have failed."),
     mkWorld p (componentsPath w)
       (trace w ++ [ELog LogGenerating; generatorCall])).
Proof.
  intros Hm Hgen Hp. unfold main. unfold bind at 1.
  rewrite ensureSvgIcons_eq, Hm. unfold execa_generator.
  cbn [emit svgPath]. rewrite Hgen.
  unfold bind at 1.
  rewrite buildReactComponents_guard, detectSvgDir_eq.
  destruct Hp as [-> | [-> | [k ->]]];
    cbn; unfold setSvgPath, emit; cbn [svgPath componentsPath trace];
    rewrite <- app_assoc; reflexivity.
Qed.

Lemma buildReactComponents_events w entries :
  svgPath w = PDirectory entries ->
  exists new,
    trace (snd (buildReactComponents io transform w)) = trace w ++ new /\
    Forall (fun e => isBuildEvent e = true) new.
Proof.
  intros Hp. destruct (svgFiles entries) as [|svg0 svgs] eqn:Hsvgs.
  { rewrite (buildReactComponents_empty io transform w entries Hp Hsvgs).
    eexists [_]. split; [reflexivity | repeat constructor]. }
  assert (Hne : svgFiles entries <> []) by congruence.
  destruct (removable_dec (componentsPath w)) as [Hrm | (e & Hd & He)].
  2:{ rewrite (buildReactComponents_rm_fails io transform w entries e
                 Hp Hne Hd He).
      eexists [_]. split; [reflexivity | repeat constructor]. }
  rewrite (buildReactComponents_rm_ok io transform w entries Hp Hne Hrm).
  destruct (mkdirFault io) as [e|].
  { exists [ERm componentsDirRel; EMkdir componentsDirRel].
    split; [|repeat constructor].
    cbn [snd emit setComponentsPath trace]. rewrite <- app_assoc. reflexivity. }
  set (n := length (svgFiles entries)).
  destruct (forOf_transformOne_run io transform (svgFiles entries)
              (loopStart n w) ∅ eq_refl)
    as (r & w1 & files & done & rest & att & E & _ & _ & _ & Ht & _).
  rewrite E.
  assert (Hw : Forall (fun e => isBuildEvent e = true) (List.map writeEvent att)).
  { apply Forall_forall. intros ev Hev.
    apply list_elem_of_In, in_map_iff in Hev as (s & <- & _). reflexivity. }
  destruct r as [[]|error]; cbn [snd emit trace]; rewrite Ht;
    cbn [loopStart emit setComponentsPath trace]; rewrite <- !app_assoc.
  - eexists. split; [reflexivity|]. cbn [app].
    repeat (constructor; [reflexivity|]).
    apply Forall_app. split; [exact Hw | repeat constructor].
  - eexists. split; [reflexivity|]. cbn [app].
    repeat (constructor; [reflexivity|]). exact Hw.
Qed.

(** X24: an empty source directory does not clear the destination, and it
    does not stop the formatter either: the script goes on to format
    whatever an earlier run left there.  Its calls are the two lines of
    the skipped steps, the formatting line and the formatter, in this
    order. *)
Theorem main_empty_source_formats_old_output
    (w : World) (entries : list Dirent) (files : gmap jsstring jsstring) :
  svgPath w = PDirectory entries ->
  svgFiles entries = [] ->
  componentsPath w = DDir files ->
  trace (snd (main io transform sfSymbolsSvg prettier w)) =
    trace w ++
    [ELog (LogSkipGeneration svgDirRel); ELog (LogNoSvgIcons svgDirRel);
     ELog LogFormatting; prettierCall] /\
  fst (main io transform sfSymbolsSvg prettier w) = fst (prettier (DDir files)) /\
  componentsPath (snd (main io transform sfSymbolsSvg prettier w)) =
    snd (prettier (DDir files)).
Proof.
  intros Hp Hnone Hc. rewrite (main_directory w entries Hp).
  rewrite (buildReactComponents_empty io transform _ entries)
    by (cbn [emit svgPath]; assumption).
  rewrite formatComponents_eq. cbn [emit componentsPath]. rewrite Hc.
  cbn. rewrite <- !app_assoc. auto.
Qed.

(** X25: when the build step returns, the formatter is given exactly what
    the build step wrote; the script's outcome is the formatter's, and
    what the formatter leaves is the destination at the end.  The
    formatting line and the formatter call are the last two events. *)
Theorem main_formats_what_was_built (w : World) (entries : list Dirent) :
  svgPath w = PDirectory entries ->
  svgFiles entries <> [] ->
  fst (buildReactComponents io transform w) = Ok tt ->
  exists files pre,
    componentsPath (snd (buildReactComponents io transform w)) = DDir files /\
    trace (snd (main io transform sfSymbolsSvg prettier w)) =
      trace w ++ pre ++ [ELog LogFormatting; prettierCall] /\
    fst (main io transform sfSymbolsSvg prettier w) =
      fst (prettier (DDir files)) /\
    componentsPath (snd (main io transform sfSymbolsSvg prettier w)) =
      snd (prettier (DDir files)).
Proof.
  intros Hp Hne Hok. rewrite (main_directory w entries Hp).
  assert (Hrm : removable (componentsPath w)).
  { destruct (removable_dec (componentsPath w)) as [Hrm | (e & Hd & He)];
      [exact Hrm|].
    rewrite (buildReactComponents_rm_fails io transform w entries e
               Hp Hne Hd He) in Hok. discriminate. }
  destruct (buildReactComponents_replay io transform w entries
              (componentsPath w)
              (trace w ++ [ELog (LogSkipGeneration svgDirRel)]) Hp Hne Hrm Hrm)
    as (r & w' & new & E & Hs & Ht & _ & Et).
  change (mkWorld (svgPath w) (componentsPath w)
            (trace w ++ [ELog (LogSkipGeneration svgDirRel)]))
    with (emit (ELog (LogSkipGeneration svgDirRel)) w) in Et.
  rewrite E in Hok. cbn [fst] in Hok. subst r. rewrite E, Et. cbn [snd].
  assert (Hdir : exists files, componentsPath w' = DDir files).
  { rewrite (buildReactComponents_rm_ok io transform w entries Hp Hne Hrm) in E.
    destruct (mkdirFault io); [discriminate|].
    destruct (forOf_transformOne_run io transform (svgFiles entries)
                (loopStart (length (svgFiles entries)) w) ∅ eq_refl)
      as (r & w1 & files & done & rest & att & E1 & _ & _ & Hc & _).
    rewrite E1 in E. destruct r; [|discriminate].
    injection E as <-. exists files. exact Hc. }
  destruct Hdir as (files & Hc).
  exists files, (ELog (LogSkipGeneration svgDirRel) :: new).
  split; [exact Hc|].
  rewrite formatComponents_eq. cbn [withTrace componentsPath].
  rewrite Hc. cbn. rewrite <- !app_assoc. auto.
Qed.

(** X26: when the build step throws, the script throws the same error and
    the formatter is not reached: among the new events there is neither
    the formatting line nor the formatter call, and the destination is
    what the build step left. *)
Theorem main_build_failure_skips_formatter
    (w : World) (entries : list Dirent) (error : Failure) :
  svgPath w = PDirectory entries ->
  fst (buildReactComponents io transform w) = Throw error ->
  fst (main io transform sfSymbolsSvg prettier w) = Throw error /\
  componentsPath (snd (main io transform sfSymbolsSvg prettier w)) =
    componentsPath (snd (buildReactComponents io transform w)) /\
  ~ In prettierCall
      (drop (length (trace w))
         (trace (snd (main io transform sfSymbolsSvg prettier w)))) /\
  ~ In (ELog LogFormatting)
      (drop (length (trace w))
         (trace (snd (main io transform sfSymbolsSvg prettier w)))).
Proof.
  intros Hp Hfail. rewrite (main_directory w entries Hp).
  set (w0 := emit (ELog (LogSkipGeneration svgDirRel)) w).
  assert (Hne : svgFiles entries <> []).
  { intros Hnone.
    rewrite (buildReactComponents_empty io transform w entries Hp Hnone) in Hfail.
    discriminate. }
  destruct (buildReactComponents_events w0 entries Hp) as (new & Hnew & Hev).
  assert (Hsame :
    fst (buildReactComponents io transform w0) = Throw error /\
    componentsPath (snd (buildReactComponents io transform w0)) =
      componentsPath (snd (buildReactComponents io transform w))).
  { destruct (removable_dec (componentsPath w)) as [Hrm | (e & Hd & He)].
    - destruct (buildReactComponents_replay io transform w entries
                  (componentsPath w) (trace w0) Hp Hne Hrm Hrm)
        as (r & w' & new' & E & _ & _ & _ & Et).
      change (mkWorld (svgPath w) (componentsPath w) (trace w0)) with w0 in Et.
      rewrite E in Hfail. rewrite E, Et. cbn [fst snd] in *. auto.
    - rewrite (buildReactComponents_rm_fails io transform w entries e
                 Hp Hne Hd He) in Hfail.
      rewrite (buildReactComponents_rm_fails io transform w entries e
                 Hp Hne Hd He).
      rewrite (buildReactComponents_rm_fails io transform w0 entries e
                 Hp Hne Hd He).
      cbn [fst snd] in *. auto. }
  destruct Hsame as [Hf Hc].
  destruct (buildReactComponents io transform w0) as [[[]|e] w2];
    cbn [fst snd] in *; [discriminate|].
  split; [exact Hf|]. split; [exact Hc|].
  rewrite Hnew. subst w0. cbn [emit trace].
  rewrite <- app_assoc, drop_app_length.
  rewrite Forall_forall in Hev.
  split; intros [H | H]; try discriminate;
    apply list_elem_of_In, Hev in H; discriminate.
Qed.

End MainProperties.

(** ** The page builder *)

Section BrowserProperties.

Variable localeCompare : jsstring -> jsstring -> Z.
Variables t0 t1 t2 t3 : jsstring.
Variable countText : nat -> jsstring.
Variable sep : N.
Variable relativeIconDir : jsstring.
Variable pageWriteFault : jsstring -> option (Failure * OutputState).

Lemma loadIconNames_length entries :
  length (loadIconNames localeCompare entries) = length (svgFiles entries).
Proof.
  unfold loadIconNames. rewrite (Permutation_length (sortWith_perm _ _)).
  apply length_map.
Qed.

(** X27: a directory without icons is an error for the page builder: it
    throws its own error and writes no page. *)
Theorem browserMain_no_icons (w : BrowserWorld) (entries : list Dirent) :
  iconDir w = PDirectory entries ->
  svgFiles entries = [] ->
  browserMain localeCompare t0 t1 t2 t3 countText sep relativeIconDir
    pageWriteFault w =
    (Throw (JsError "No icons found in src/sf-symbols"), w).
Proof.
  intros Hd Hnone. unfold browserMain. rewrite Hd. cbn [readdirOf].
  rewrite loadIconNames_length, Hnone. reflexivity.
Qed.

(** X28: the page builder has no guard of its own: a missing icon directory
    is the listing's not-found error, and every error of the listing is
    thrown as it is with nothing written.  Whatever makes the page
    builder throw, its log is as it was, and the page is as it was
    unless it was the write that failed: then the page is what the
    failed write left. *)
Theorem browserMain_failures (w : BrowserWorld) :
  (iconDir w = PAbsent ->
   browserMain localeCompare t0 t1 t2 t3 countText sep relativeIconDir
     pageWriteFault w =
     (Throw (ErrnoException "ENOENT"), w)) /\
  (forall error,
     readdirOf (iconDir w) = Throw error ->
     browserMain localeCompare t0 t1 t2 t3 countText sep relativeIconDir
       pageWriteFault w = (Throw error, w)) /\
  (forall error w',
     browserMain localeCompare t0 t1 t2 t3 countText sep relativeIconDir
       pageWriteFault w = (Throw error, w') ->
     iconDir w' = iconDir w /\ browserLog w' = browserLog w /\
     (outputFile w' = outputFile w \/
      exists html,
        pageWriteFault html = Some (error, outputFile w'))).
Proof.
  unfold browserMain. split; [|split].
  - intros ->. reflexivity.
  - intros error ->. reflexivity.
  - intros error w'.
    destruct (readdirOf (iconDir w)) as [entries|e].
    2:{ intros H. injection H as <- <-. auto. }
    destruct (length (loadIconNames localeCompare entries) =? 0)%nat.
    { intros H. injection H as <- <-. auto. }
    set (html := renderPage t0 t1 t2 t3 countText sep relativeIconDir _).
    destruct (outputFile w) eqn:Ho.
    + intros H. injection H as <- <-. auto.
    + destruct (pageWriteFault html) as [[e remains]|] eqn:Hw;
        [|discriminate].
      intros H. injection H as <- <-. cbn. eauto.
    + destruct (pageWriteFault html) as [[e remains]|] eqn:Hw;
        [|discriminate].
      intros H. injection H as <- <-. cbn. eauto.
Qed.

(** X29: with at least one icon and a place to write to, the page is written
    over whatever was there, unless the write itself is refused: the
    page carries the data literal of the sorted names between the
    template's own text, and the count it reports is the number of icon
    files. *)
Theorem browserMain_writes_page (w : BrowserWorld) (entries : list Dirent) :
  iconDir w = PDirectory entries ->
  svgFiles entries <> [] ->
  outputFile w <> OutNoDirectory ->
  let iconNames := loadIconNames localeCompare entries in
  let page := renderPage t0 t1 t2 t3 countText sep relativeIconDir iconNames in
  browserMain localeCompare t0 t1 t2 t3 countText sep relativeIconDir
    pageWriteFault w =
    match pageWriteFault page with
    | None =>
        (Ok tt,
         mkBrowserWorld (iconDir w) (OutFile page)
           (browserLog w ++
            [LogWrote (length (svgFiles entries)) outputPathRel; LogOpenHint]))
    | Some (error, remains) =>
        (Throw error, mkBrowserWorld (iconDir w) remains (browserLog w))
    end /\
  occursIn (safeJson iconNames) page /\
  page =
    (t0 ++ countText (length (svgFiles entries)) ++ t1) ++
    safeJson iconNames ++
    (t2 ++ quoteJSONString (iconUrlPrefix (toSlashes sep relativeIconDir)) ++ t3).
Proof.
  intros Hd Hne Hout iconNames page.
  assert (Hlen : length iconNames = length (svgFiles entries))
    by apply loadIconNames_length.
  assert (Hpage : page =
      (t0 ++ countText (length (svgFiles entries)) ++ t1) ++
      safeJson iconNames ++
      (t2 ++ quoteJSONString (iconUrlPrefix (toSlashes sep relativeIconDir)) ++ t3)).
  { subst page. unfold renderPage, renderHtml.
    rewrite Hlen, <- !app_assoc. reflexivity. }
  split; [|split; [|exact Hpage]].
  - unfold browserMain. rewrite Hd. cbn [readdirOf]. fold iconNames.
    rewrite Hlen. fold page.
    destruct (svgFiles entries) as [|svg0 svgs]; [congruence|].
    cbn [length Nat.eqb].
    destruct (outputFile w); [congruence | |];
      destruct (pageWriteFault page) as [[e remains]|]; reflexivity.
  - rewrite Hpage. eexists _, _. reflexivity.
Qed.

End BrowserProperties.

(** ** Concrete runs of the further properties *)

Lemma buildReactComponents_needs_directory_witness :
  buildReactComponents noFaults transformEcho (worldWith PAbsent) =
    (Throw (JsError
       "SVG icon directory not found at src/sf-symbols. Generation may have failed."),
     worldWith PAbsent) /\
  buildReactComponents noFaults transformEcho
      (worldWith (PFault (ErrnoException "EACCES"))) =
    (Throw (ErrnoException "EACCES"),
     worldWith (PFault (ErrnoException "EACCES"))).
Proof.
  split.
  - apply (proj1 (buildReactComponents_needs_directory noFaults transformEcho
                    (worldWith PAbsent))).
    left. reflexivity.
  - apply (proj2 (buildReactComponents_needs_directory noFaults transformEcho
                    (worldWith (PFault (ErrnoException "EACCES"))))).
    reflexivity.
Defined.

Lemma buildReactComponents_forgets_destination_witness :
  buildReactComponents noFaults transformEcho
    (setComponentsPath DNotDir staleWorld) =
  buildReactComponents noFaults transformEcho staleWorld.
Proof.
  apply (buildReactComponents_forgets_destination noFaults transformEcho
           staleWorld listing4 DNotDir).
  - reflexivity.
  - discriminate.
  - intros error H. discriminate.
  - intros error H. discriminate.
Defined.

Lemma buildReactComponents_last_write_wins_witness :
  exists files source,
    componentsPath
      (snd (buildReactComponents noFaults transformEcho
              (worldWith (PDirectory collidingListing)))) = DDir files /\
    sourceFor noFaults transformEcho (worldWith (PDirectory collidingListing))
      (mkDirent (js "a_b.svg") KFile (js "<two/>")) = Ok source /\
    files !! componentFile (mkDirent (js "a_b.svg") KFile (js "<two/>")) =
      Some source.
Proof.
  apply (buildReactComponents_last_write_wins noFaults transformEcho
           (worldWith (PDirectory collidingListing))
           (snd (buildReactComponents noFaults transformEcho
                   (worldWith (PDirectory collidingListing))))
           collidingListing
           [mkDirent (js "a-b.svg") KFile (js "<one/>")] []
           (mkDirent (js "a_b.svg") KFile (js "<two/>"))).
  - reflexivity.
  - reflexivity.
  - intros later [].
  - vm_compute. reflexivity.
Defined.

Lemma buildReactComponents_writes_in_order_witness :
  trace (snd (buildReactComponents noFaults transformEcho
                (worldWith (PDirectory collidingListing)))) =
    trace (worldWith (PDirectory collidingListing)) ++
    [ERm componentsDirRel; EMkdir componentsDirRel;
     ELog (LogTransforming (length (svgFiles collidingListing)))] ++
    List.map writeEvent (svgFiles collidingListing) ++
    [ELog (LogGenerated (length (svgFiles collidingListing)) componentsDirRel)].
Proof.
  destruct (buildReactComponents_writes_in_order noFaults transformEcho
              (worldWith (PDirectory collidingListing)) collidingListing)
    as [_ H].
  - reflexivity.
  - discriminate.
  - apply H. vm_compute. reflexivity.
Defined.


Lemma buildReactComponents_rerun_witness :
  fst (buildReactComponents noFaults transformEcho
         (snd (buildReactComponents noFaults transformEcho staleWorld))) =
    fst (buildReactComponents noFaults transformEcho staleWorld) /\
  componentsPath
    (snd (buildReactComponents noFaults transformEcho
            (snd (buildReactComponents noFaults transformEcho staleWorld)))) =
    componentsPath (snd (buildReactComponents noFaults transformEcho staleWorld)).
Proof.
  apply (buildReactComponents_rerun noFaults transformEcho staleWorld listing4).
  - reflexivity.
  - discriminate.
Defined.

Lemma ensureSvgIcons_frame_witness :
  svgPath (snd (ensureSvgIcons generatorFails (worldWith PAbsent))) =
    PDirectory [] /\
  fst (ensureSvgIcons generatorFails (worldWith PAbsent)) =
    Throw (SubprocessFailed "yarn").
Proof.
  apply (proj2 (proj2 (ensureSvgIcons_frame generatorFails (worldWith PAbsent)))).
  reflexivity.
Defined.

Lemma ensureSvgIcons_failures_witness :
  ensureSvgIcons generatorFails (worldWith PAbsent) =
    (Throw (SubprocessFailed "yarn"),
     setSvgPath (PDirectory [])
       (emit generatorCall (emit (ELog LogGenerating) (worldWith PAbsent)))) /\
  ensureSvgIcons generatorFills (worldWith (PFault (ErrnoException "EACCES"))) =
    (Throw (ErrnoException "EACCES"),
     worldWith (PFault (ErrnoException "EACCES"))).
Proof.
  split.
  - apply (proj1 (ensureSvgIcons_failures generatorFails (worldWith PAbsent)
                    (SubprocessFailed "yarn")) (PDirectory [])); reflexivity.
  - apply (proj2 (ensureSvgIcons_failures generatorFills
                    (worldWith (PFault (ErrnoException "EACCES")))
                    (ErrnoException "EACCES"))).
    + reflexivity.
    + discriminate.
Defined.

Lemma formatComponents_started_iff_directory_witness :
  formatComponents prettierKeeps (worldOf PAbsent DAbsent) =
    (Ok tt, emit (ELog (LogSkipPrettierMissing componentsDirRel))
              (worldOf PAbsent DAbsent)) /\
  formatComponents prettierKeeps (worldOf PAbsent DNotDir) =
    (Ok tt, emit (ELog (LogSkipPrettierNotDirectory componentsDirRel))
              (worldOf PAbsent DNotDir)) /\
  formatComponents prettierKeeps
      (worldOf PAbsent (DFault (ErrnoException "EACCES"))) =
    (Throw (ErrnoException "EACCES"),
     worldOf PAbsent (DFault (ErrnoException "EACCES"))).
Proof.
  split; [|split].
  - apply (proj1 (proj2 (formatComponents_started_iff_directory prettierKeeps
                           (worldOf PAbsent DAbsent)))).
    reflexivity.
  - apply (proj1 (proj2 (proj2 (formatComponents_started_iff_directory
                                  prettierKeeps (worldOf PAbsent DNotDir))))).
    reflexivity.
  - apply (proj2 (proj2 (proj2 (formatComponents_started_iff_directory
                                  prettierKeeps
                                  (worldOf PAbsent
                                     (DFault (ErrnoException "EACCES")))))));
      [reflexivity | discriminate].
Defined.

Lemma formatComponents_runs_formatter_witness :
  trace (snd (formatComponents prettierFails (worldOf PAbsent staleDest))) =
    [ELog LogFormatting; prettierCall] /\
  fst (formatComponents prettierFails (worldOf PAbsent staleDest)) =
    Throw (SubprocessFailed "yarn").
Proof.
  pose proof (formatComponents_runs_formatter prettierFails
                (worldOf PAbsent staleDest)
                {[ js "OldIcon.tsx" := js "stale" ]} eq_refl) as H.
  split; [exact (proj1 (proj2 H)) | exact (proj1 (proj2 (proj2 H)))].
Defined.

Lemma main_stops_on_file_witness :
  main noFaults transformEcho generatorFills prettierKeeps
    (worldOf PFile staleDest) =
    (Throw (JsError
       "src/sf-symbols exists but is not a directory. Remove it so icons can be generated."),
     worldOf PFile staleDest).
Proof.
  apply (main_stops_on_file noFaults transformEcho generatorFills prettierKeeps
           (worldOf PFile staleDest)).
  reflexivity.
Defined.

Lemma main_generation_left_nothing_witness :
  main noFaults transformEcho generatorIdle prettierKeeps
    (worldOf PAbsent staleDest) =
    (Throw (JsError
       "SVG icon directory not found at src/sf-symbols. Generation may have failed."),
     mkWorld PAbsent staleDest [ELog LogGenerating; generatorCall]).
Proof.
  apply (main_generation_left_nothing noFaults transformEcho generatorIdle
           prettierKeeps (worldOf PAbsent staleDest) PAbsent).
  - reflexivity.
  - reflexivity.
  - left. reflexivity.
Defined.

Lemma main_empty_source_formats_old_output_witness :
  trace (snd (main noFaults transformEcho generatorFills prettierKeeps
                (worldOf (PDirectory []) staleDest))) =
    [ELog (LogSkipGeneration svgDirRel); ELog (LogNoSvgIcons svgDirRel);
     ELog LogFormatting; prettierCall].
Proof.
  exact (proj1 (main_empty_source_formats_old_output
                  noFaults transformEcho generatorFills prettierKeeps
                  (worldOf (PDirectory []) staleDest) []
                  {[ js "OldIcon.tsx" := js "stale" ]}
                  eq_refl eq_refl eq_refl)).
Defined.

Lemma main_formats_what_was_built_witness :
  exists files pre,
    componentsPath
      (snd (buildReactComponents noFaults transformEcho
              (worldOf (PDirectory listing4) staleDest))) = DDir files /\
    trace (snd (main noFaults transformEcho generatorFills prettierKeeps
                  (worldOf (PDirectory listing4) staleDest))) =
      trace (worldOf (PDirectory listing4) staleDest) ++
      pre ++ [ELog LogFormatting; prettierCall] /\
    fst (main noFaults transformEcho generatorFills prettierKeeps
           (worldOf (PDirectory listing4) staleDest)) =
      fst (prettierKeeps (DDir files)) /\
    componentsPath
      (snd (main noFaults transformEcho generatorFills prettierKeeps
              (worldOf (PDirectory listing4) staleDest))) =
      snd (prettierKeeps (DDir files)).
Proof.
  apply (main_formats_what_was_built noFaults transformEcho generatorFills
           prettierKeeps (worldOf (PDirectory listing4) staleDest) listing4).
  - reflexivity.
  - discriminate.
  - vm_compute. reflexivity.
Defined.

Lemma main_build_failure_skips_formatter_witness :
  fst (main noFaults transformPicky generatorFills prettierKeeps
         (worldOf (PDirectory pickyListing) staleDest)) =
    Throw (TransformFailed (js "BadIcon")).
Proof.
  apply (main_build_failure_skips_formatter
           noFaults transformPicky generatorFills prettierKeeps
           (worldOf (PDirectory pickyListing) staleDest)
           pickyListing (TransformFailed (js "BadIcon"))).
  - reflexivity.
  - vm_compute. reflexivity.
Defined.

Lemma browserMain_no_icons_witness :
  browserMain (fun a b => 0%Z) [] [] [] [] (fun n => []) 47
    (js "../src/sf-symbols") (fun html => None)
    (mkBrowserWorld (PDirectory [iconUpper]) OutAbsent []) =
  (Throw (JsError "No icons found in src/sf-symbols"),
   mkBrowserWorld (PDirectory [iconUpper]) OutAbsent []).
Proof.
  apply (browserMain_no_icons (fun a b => 0%Z) [] [] [] [] (fun n => []) 47
           (js "../src/sf-symbols") (fun html => None)
           (mkBrowserWorld (PDirectory [iconUpper]) OutAbsent []) [iconUpper]).
  - reflexivity.
  - reflexivity.
Defined.

Lemma browserMain_failures_witness :
  browserMain (fun a b => 0%Z) [] [] [] [] (fun n => []) 47
    (js "../src/sf-symbols") (fun html => None)
    (mkBrowserWorld PAbsent (OutFile (js "old page")) []) =
  (Throw (ErrnoException "ENOENT"),
   mkBrowserWorld PAbsent (OutFile (js "old page")) []).
Proof.
  apply (proj1 (browserMain_failures (fun a b => 0%Z)
                  [] [] [] [] (fun n => []) 47 (js "../src/sf-symbols")
                  (fun html => None)
                  (mkBrowserWorld PAbsent (OutFile (js "old page")) []))).
  reflexivity.
Defined.

Lemma browserMain_writes_page_witness :
  occursIn (safeJson (loadIconNames (fun a b => 0%Z) listing4))
    (renderPage (js "<p>") (js "</p><script>") (js ";") (js "</script>")
       (fun n => js "1") 47 (js "../src/sf-symbols")
       (loadIconNames (fun a b => 0%Z) listing4)).
Proof.
  destruct (browserMain_writes_page (fun a b => 0%Z)
              (js "<p>") (js "</p><script>") (js ";") (js "</script>")
              (fun n => js "1") 47 (js "../src/sf-symbols")
              (fun html => Some (ErrnoException "ENOSPC", OutFile []))
              (mkBrowserWorld (PDirectory listing4) (OutFile (js "old page")) [])
              listing4)
    as (_ & H & _).
  - reflexivity.
  - discriminate.
  - discriminate.
  - exact H.
Defined.
